(** * Financial calculators of free-tools: a shallow embedding

    The calculators under [src/controllers] (EMI, simple and compound
    interest, SIP, retirement corpus, FD, loan eligibility) are pure
    functions over JavaScript numbers.  They are embedded here over the
    real numbers: [+], [-], [*] and [/] are the exact operations, so the
    theorems below speak about the formulas the code evaluates and not
    about IEEE-754 rounding of intermediate results.  Values outside the
    reals ([NaN], the infinities, [undefined]) are not part of the model.

    A function that throws returns [Throw msg]; a function that returns
    gives [Ok v].  The top-level calculators are [async] and wrap their
    body in a [try] whose [catch] logs the error and throws it again, so
    the outcome of a call is the outcome of the body. *)

From Stdlib Require Import Reals Lra Lia ZArith List String Ascii Bool.
From Stdlib Require Import DecimalString Sorted Permutation.
Import ListNotations.
Local Open Scope string_scope.
Local Open Scope R_scope.

(** ** Results of functions that may throw *)

Inductive result (A : Type) : Type :=
| Ok (value : A)
| Throw (message : string).
Arguments Ok {A} value.
Arguments Throw {A} message.

Definition bind {A B : Type} (c : result A) (k : A -> result B) : result B :=
  match c with
  | Ok v => k v
  | Throw m => Throw m
  end.

Notation "x <- c ;; k" := (bind c (fun x => k))
  (at level 61, c at next level, right associativity).
Notation "c ;;; k" := (bind c (fun _ => k))
  (at level 61, right associativity).

Definition throws {A : Type} (c : result A) : Prop :=
  exists m, c = Throw m.

(** ** The JavaScript primitives the calculators use *)

Module JS.

(** [x < y], [x <= y] and [x === y] on numbers. *)
Definition ltb (x y : R) : bool := if Rlt_dec x y then true else false.
Definition leb (x y : R) : bool := if Rle_dec x y then true else false.
Definition eqb (x y : R) : bool := if Req_dec_T x y then true else false.

(** [!x] for a number [x]: only zero is falsy ([NaN], [undefined] and
    [null], falsy as well, are not values of the model). *)
Definition falsy (x : R) : bool := eqb x 0.

Definition Math_floor (x : R) : R := IZR (Int_part x).
Definition Math_ceil (x : R) : R := - IZR (Int_part (- x)).

(** [Math.round] rounds to the nearest integer, halves upwards. *)
Definition Math_round (x : R) : R := IZR (Int_part (x + / 2)).

Definition Math_max (x y : R) : R := if Rle_dec x y then y else x.

(** [Math.pow(x, y)]: the real power for a positive base.  For a base
    that is not positive only integer exponents have a real value, and
    JavaScript gives [NaN] at the others; the definition is to be read
    at integer exponents there.  The calculators raise [1 + rate] with a
    rate that validation keeps at 0 or above, so their base is positive. *)
Definition Math_pow (x y : R) : R :=
  if Rlt_dec 0 x then Rpower x y else powerRZ x (Int_part y).

Definition Number_isInteger (x : R) : bool := eqb (Math_floor x) x.

(** The recurring expression [Math.round(v * 100) / 100]. *)
Definition round2 (v : R) : R := Math_round (v * 100) / 100.

(** The values of [i] in [for (let i = from; i <= upto; i++)]. *)
Definition for_range (from : nat) (upto : R) : list nat :=
  seq from (Z.to_nat (Int_part upto + 1) - from).

End JS.
Import JS.

(** ** src/controllers/emiCalculatorController.js *)

Module EMI.

Record Result : Type := mkResult {
  loanAmount : R;
  interestRate : R;
  tenureMonths : R;
  monthlyEMI : R;
  totalInterest : R;
  totalPayable : R
}.

Record Entry : Type := mkEntry {
  month : nat;
  principal : R;
  interest : R;
  balance : R
}.

Definition validateInputs (loanAmount interestRate tenureMonths : R)
  : result unit :=
  if falsy loanAmount || leb loanAmount 0 then
    Throw "Loan amount must be greater than 0"
  else if ltb interestRate 0 || ltb 100 interestRate then
    Throw "Interest rate must be between 0 and 100"
  else if falsy tenureMonths || leb tenureMonths 0
          || negb (Number_isInteger tenureMonths) then
    Throw "Loan tenure must be a positive integer (in months)"
  else Ok tt.

(** Lines 25-38 of [calculateEMI]: the instalment before rounding. *)
Definition unroundedEMI (loanAmount interestRate tenureMonths : R) : R :=
  let monthlyRate := interestRate / (12 * 100) in
  if eqb monthlyRate 0 then
    loanAmount / tenureMonths
  else
    let factor := Math_pow (1 + monthlyRate) tenureMonths in
    (loanAmount * monthlyRate * factor) / (factor - 1).

Definition calculateEMI (loanAmount interestRate tenureMonths : R)
  : result Result :=
  validateInputs loanAmount interestRate tenureMonths ;;;
  let monthlyEMI := unroundedEMI loanAmount interestRate tenureMonths in
  let totalPayable := monthlyEMI * tenureMonths in
  let totalInterest := totalPayable - loanAmount in
  let monthlyEMI := round2 monthlyEMI in
  let totalPayableRounded := round2 totalPayable in
  let totalInterestRounded := round2 totalInterest in
  Ok {| loanAmount := loanAmount;
        interestRate := interestRate;
        tenureMonths := tenureMonths;
        monthlyEMI := monthlyEMI;
        totalInterest := totalInterestRounded;
        totalPayable := totalPayableRounded |}.

(** The body of the [for] loop of [generateAmortizationSchedule],
    threaded with the running [balance]. *)
Fixpoint scheduleLoop (monthlyRate monthlyEMI : R) (months : list nat)
  (balance : R) : list Entry :=
  match months with
  | [] => []
  | month :: rest =>
      let interestComponent := balance * monthlyRate in
      let principalComponent := monthlyEMI - interestComponent in
      let balance := balance - principalComponent in
      {| month := month;
         principal := round2 principalComponent;
         interest := round2 interestComponent;
         balance := Math_max 0 (round2 balance) |}
        :: scheduleLoop monthlyRate monthlyEMI rest balance
  end.

Definition generateAmortizationSchedule
  (loanAmount interestRate tenureMonths monthlyEMI : R) : list Entry :=
  let monthlyRate := interestRate / (12 * 100) in
  scheduleLoop monthlyRate monthlyEMI (for_range 1 tenureMonths) loanAmount.

End EMI.

(** ** src/controllers/interestCalculatorController.js *)

Module Interest.

Record Amounts : Type := mkAmounts {
  interest : R;
  totalAmount : R
}.

Record YearEntry : Type := mkYearEntry {
  year : R;
  principalAtStart : R;
  interestForYear : R;
  totalAtEnd : R
}.

Record Result : Type := mkResult {
  principal : R;
  interestRate : R;
  timePeriod : R;
  interestType : string;
  interestAmount : R;
  resultTotalAmount : R;
  growthRate : R;
  yearWiseBreakdown : list YearEntry
}.

Definition quote : string := String (ascii_of_nat 34) EmptyString.

Definition validateInputs (principal interestRate timePeriod : R)
  (interestType : string) : result unit :=
  if falsy principal || leb principal 0 then
    Throw "Principal amount must be greater than 0"
  else if ltb interestRate 0 || ltb 100 interestRate then
    Throw "Interest rate must be between 0 and 100"
  else if falsy timePeriod || leb timePeriod 0 || ltb 100 timePeriod then
    Throw "Time period must be between 0.1 and 100 years"
  else if String.eqb interestType EmptyString
          || negb (existsb (String.eqb interestType) ["simple"; "compound"])
  then
    Throw ("Interest type must be " ++ quote ++ "simple" ++ quote
           ++ " or " ++ quote ++ "compound" ++ quote)%string
  else Ok tt.

Definition calculateSimpleInterest (principal rate time : R) : Amounts :=
  let interest := (principal * rate * time) / 100 in
  let totalAmount := principal + interest in
  {| interest := interest; totalAmount := totalAmount |}.

Definition calculateCompoundInterest (principal rate time : R) : Amounts :=
  let amount := principal * Math_pow (1 + rate / 100) time in
  let interest := amount - principal in
  let totalAmount := amount in
  {| interest := interest; totalAmount := totalAmount |}.

(** The simple-interest loop; the recursion stops at the end of the
    range or at the [break]. *)
Fixpoint simpleLoop (principal time yearlyInterest : R) (years : list nat)
  : list YearEntry :=
  match years with
  | [] => []
  | y :: rest =>
      let year := INR y in
      let isPartialYear := ltb time year in
      let actualYear := if isPartialYear then time else year in
      let interestForYear :=
        if isPartialYear then yearlyInterest * (time - Math_floor time)
        else yearlyInterest in
      let totalAtEnd := principal + yearlyInterest * actualYear in
      {| year := if isPartialYear then time else year;
         principalAtStart := principal;
         interestForYear := interestForYear;
         totalAtEnd := totalAtEnd |}
        :: (if eqb year (Math_floor time) then []
            else simpleLoop principal time yearlyInterest rest)
  end.

(** The compound-interest loop, threaded with [runningPrincipal]. *)
Fixpoint compoundLoop (rate time : R) (years : list nat)
  (runningPrincipal : R) : list YearEntry :=
  match years with
  | [] => []
  | y :: rest =>
      let year := INR y in
      let isPartialYear := ltb time year in
      let actualYear :=
        if isPartialYear then time - Math_floor time else 1 in
      let principalAtStart := runningPrincipal in
      let interestForYear :=
        runningPrincipal * (Math_pow (1 + rate / 100) actualYear - 1) in
      let totalAtEnd := principalAtStart + interestForYear in
      {| year := if isPartialYear then time else year;
         principalAtStart := principalAtStart;
         interestForYear := interestForYear;
         totalAtEnd := totalAtEnd |}
        :: (if eqb year (Math_floor time) then []
            else compoundLoop rate time rest totalAtEnd)
  end.

Definition generateYearWiseBreakdown (principal rate time : R)
  (interestType : string) : list YearEntry :=
  let roundedTime := Math_ceil time in
  if String.eqb interestType "simple" then
    let yearlyInterest := (principal * rate) / 100 in
    simpleLoop principal time yearlyInterest (for_range 1 roundedTime)
  else
    compoundLoop rate time (for_range 1 roundedTime) principal.

Definition roundEntry (item : YearEntry) : YearEntry :=
  {| year := year item;
     principalAtStart := round2 (principalAtStart item);
     interestForYear := round2 (interestForYear item);
     totalAtEnd := round2 (totalAtEnd item) |}.

Definition calculateInterest (principal interestRate timePeriod : R)
  (interestType : string) : result Result :=
  validateInputs principal interestRate timePeriod interestType ;;;
  let result :=
    if String.eqb interestType "simple" then
      calculateSimpleInterest principal interestRate timePeriod
    else
      calculateCompoundInterest principal interestRate timePeriod in
  let interestAmount := interest result in
  let totalAmount := totalAmount result in
  let yearWiseBreakdown :=
    generateYearWiseBreakdown principal interestRate timePeriod
      interestType in
  let growthRate := (interestAmount / principal) * 100 in
  let interestAmount := round2 interestAmount in
  let totalAmount := round2 totalAmount in
  let growthRateRounded := round2 growthRate in
  Ok {| principal := principal;
        interestRate := interestRate;
        timePeriod := timePeriod;
        interestType := interestType;
        interestAmount := interestAmount;
        resultTotalAmount := totalAmount;
        growthRate := growthRateRounded;
        yearWiseBreakdown := map roundEntry yearWiseBreakdown |}.

End Interest.

(** ** src/controllers/sipCalculatorController.js *)

Module SIP.

Record GrowthEntry : Type := mkGrowthEntry {
  year : nat;
  entryTotalInvestment : R;
  entryEstimatedReturns : R;
  entryTotalValue : R
}.

Record Result : Type := mkResult {
  monthlyInvestment : R;
  investmentPeriod : R;
  expectedROI : R;
  totalInvestment : R;
  estimatedReturns : R;
  totalValue : R;
  returnsPercentage : R;
  yearWiseGrowth : list GrowthEntry
}.

Definition validateInputs (monthlyInvestment investmentPeriod expectedROI : R)
  : result unit :=
  if falsy monthlyInvestment || ltb monthlyInvestment 500 then
    Throw "Monthly investment must be at least ₹500"
  else if falsy investmentPeriod || ltb investmentPeriod 1
          || ltb 50 investmentPeriod then
    Throw "Investment period must be between 1 and 50 years"
  else if falsy expectedROI || ltb expectedROI 1 || ltb 20 expectedROI then
    Throw "Expected ROI must be between 1% and 20%"
  else Ok tt.

Definition calculateFutureValueOfAnnuity (monthlyPayment annualROI months : R)
  : R :=
  let monthlyRate := annualROI / 12 / 100 in
  if eqb monthlyRate 0 then
    monthlyPayment * months
  else
    let factor := Math_pow (1 + monthlyRate) months in
    let futureValue :=
      monthlyPayment * ((factor - 1) / monthlyRate) * (1 + monthlyRate) in
    futureValue.

Definition growthEntry (monthlyInvestment monthlyRate : R) (year : nat)
  : GrowthEntry :=
  let months := INR year * 12 in
  let totalInvestment := monthlyInvestment * months in
  let totalValue :=
    if eqb monthlyRate 0 then totalInvestment
    else
      let factor := Math_pow (1 + monthlyRate) months in
      monthlyInvestment * ((factor - 1) / monthlyRate) * (1 + monthlyRate) in
  let estimatedReturns := totalValue - totalInvestment in
  {| year := year;
     entryTotalInvestment := round2 totalInvestment;
     entryEstimatedReturns := round2 estimatedReturns;
     entryTotalValue := round2 totalValue |}.

Definition calculateYearWiseGrowth (monthlyInvestment annualROI years : R)
  : list GrowthEntry :=
  let monthlyRate := annualROI / 12 / 100 in
  map (growthEntry monthlyInvestment monthlyRate) (for_range 1 years).

Definition calculateSIP (monthlyInvestment investmentPeriod expectedROI : R)
  : result Result :=
  validateInputs monthlyInvestment investmentPeriod expectedROI ;;;
  let months := investmentPeriod * 12 in
  let totalInvestment := monthlyInvestment * months in
  let totalValue :=
    calculateFutureValueOfAnnuity monthlyInvestment expectedROI months in
  let estimatedReturns := totalValue - totalInvestment in
  let returnsPercentage :=
    if ltb 0 totalInvestment then (estimatedReturns / totalInvestment) * 100
    else 0 in
  let yearWiseGrowth :=
    calculateYearWiseGrowth monthlyInvestment expectedROI investmentPeriod in
  Ok {| monthlyInvestment := monthlyInvestment;
        investmentPeriod := investmentPeriod;
        expectedROI := expectedROI;
        totalInvestment := round2 totalInvestment;
        estimatedReturns := round2 estimatedReturns;
        totalValue := round2 totalValue;
        returnsPercentage := round2 returnsPercentage;
        yearWiseGrowth := yearWiseGrowth |}.

End SIP.

(** ** src/controllers/retirementCorpusCalculatorController.js *)

Module Retirement.

Record GrowthEntry : Type := mkGrowthEntry {
  year : nat;
  age : R;
  totalInvested : R;
  entryCorpus : R
}.

Record Result : Type := mkResult {
  currentAge : R;
  retirementAge : R;
  yearsUntilRetirement : R;
  monthlySavings : R;
  expectedROI : R;
  retirementCorpus : R;
  totalSavingsInvested : R;
  totalReturnsEarned : R;
  monthlyPensionEstimate : R;
  yearWiseGrowth : list GrowthEntry
}.

Definition validateInputs
  (currentAge retirementAge monthlySavings expectedROI : R) : result unit :=
  if falsy currentAge || ltb currentAge 18 || ltb 100 currentAge then
    Throw "Current age must be between 18 and 100"
  else if falsy retirementAge || ltb retirementAge 40
          || ltb 100 retirementAge then
    Throw "Retirement age must be between 40 and 100"
  else if leb retirementAge currentAge then
    Throw "Retirement age must be greater than current age"
  else if falsy monthlySavings || leb monthlySavings 0 then
    Throw "Monthly savings must be greater than 0"
  else if falsy expectedROI || ltb expectedROI 1 || ltb 20 expectedROI then
    Throw "Expected ROI must be between 1% and 20%"
  else Ok tt.

Definition calculateFutureValueOfAnnuity (monthlyPayment annualROI months : R)
  : R :=
  let monthlyRate := annualROI / 12 / 100 in
  if eqb monthlyRate 0 then
    monthlyPayment * months
  else
    let factor := Math_pow (1 + monthlyRate) months in
    let futureValue := monthlyPayment * ((factor - 1) / monthlyRate) in
    futureValue.

Definition growthEntry (monthlySavings monthlyRate currentAge : R)
  (year : nat) : GrowthEntry :=
  let months := INR year * 12 in
  let corpus :=
    if eqb monthlyRate 0 then monthlySavings * months
    else
      let factor := Math_pow (1 + monthlyRate) months in
      monthlySavings * ((factor - 1) / monthlyRate) in
  let totalInvested := monthlySavings * months in
  {| year := year;
     age := currentAge + INR year;
     totalInvested := round2 totalInvested;
     entryCorpus := round2 corpus |}.

Definition calculateYearWiseGrowth
  (monthlySavings annualROI years currentAge : R) : list GrowthEntry :=
  let monthlyRate := annualROI / 12 / 100 in
  map (growthEntry monthlySavings monthlyRate currentAge) (for_range 1 years).

Definition calculateCorpus
  (currentAge retirementAge monthlySavings expectedROI : R) : result Result :=
  validateInputs currentAge retirementAge monthlySavings expectedROI ;;;
  let yearsUntilRetirement := retirementAge - currentAge in
  let months := yearsUntilRetirement * 12 in
  let corpus :=
    calculateFutureValueOfAnnuity monthlySavings expectedROI months in
  let totalSavingsInvested := monthlySavings * months in
  let totalReturnsEarned := corpus - totalSavingsInvested in
  let retirementYears := 20 in
  let monthlyPensionEstimate := corpus / (retirementYears * 12) in
  let yearWiseGrowth :=
    calculateYearWiseGrowth monthlySavings expectedROI yearsUntilRetirement
      currentAge in
  Ok {| currentAge := currentAge;
        retirementAge := retirementAge;
        yearsUntilRetirement := yearsUntilRetirement;
        monthlySavings := monthlySavings;
        expectedROI := expectedROI;
        retirementCorpus := round2 corpus;
        totalSavingsInvested := round2 totalSavingsInvested;
        totalReturnsEarned := round2 totalReturnsEarned;
        monthlyPensionEstimate := round2 monthlyPensionEstimate;
        yearWiseGrowth := yearWiseGrowth |}.

End Retirement.

(** ** src/controllers/fdCalculatorController.js *)

Module FD.

Record Result : Type := mkResult {
  principal : R;
  interestRate : R;
  tenure : R;
  compoundingFrequency : R;
  maturityAmount : R;
  totalInterestEarned : R;
  effectiveRate : R
}.

Definition validateInputs (principal interestRate tenure : R) : result unit :=
  if falsy principal || ltb principal 1000 then
    Throw "Principal amount must be at least ₹1,000"
  else if falsy interestRate || ltb interestRate 1 || ltb 15 interestRate then
    Throw "Interest rate must be between 1% and 15%"
  else if falsy tenure || leb tenure 0 || ltb 10 tenure then
    Throw "Tenure must be between 1 and 10 years"
  else Ok tt.

Definition calculateMaturityAmount
  (principal annualRate tenureYears compoundingFreq : R) : R :=
  let rateDecimal := annualRate / 100 in
  let factor :=
    Math_pow (1 + rateDecimal / compoundingFreq)
      (compoundingFreq * tenureYears) in
  principal * factor.

Definition calculateEffectiveRate (annualRate compoundingFreq : R) : R :=
  let rateDecimal := annualRate / 100 in
  let ear :=
    Math_pow (1 + rateDecimal / compoundingFreq) compoundingFreq - 1 in
  ear * 100.

Definition COMPOUNDING_FREQUENCY : R := 4.

Definition calculateFD (principal interestRate tenure : R) : result Result :=
  validateInputs principal interestRate tenure ;;;
  let maturityAmount :=
    calculateMaturityAmount principal interestRate tenure
      COMPOUNDING_FREQUENCY in
  let totalInterestEarned := maturityAmount - principal in
  let effectiveRate :=
    calculateEffectiveRate interestRate COMPOUNDING_FREQUENCY in
  Ok {| principal := principal;
        interestRate := interestRate;
        tenure := tenure;
        compoundingFrequency := COMPOUNDING_FREQUENCY;
        maturityAmount := round2 maturityAmount;
        totalInterestEarned := round2 totalInterestEarned;
        effectiveRate := round2 effectiveRate |}.

End FD.

(** ** The loan eligibility calculator controller *)

Module Loan.

Record Details : Type := mkDetails {
  incomeMultiplier : R;
  debtToIncomeRatio : R
}.

Record Result : Type := mkResult {
  monthlyIncome : R;
  emiCapacity : R;
  emiCapacityPercentage : R;
  interestRate : R;
  loanTenure : R;
  eligibleLoanAmount : R;
  maximumEMI : R;
  totalInterestPayable : R;
  totalAmountPayable : R;
  eligibilityDetails : Details
}.

Definition validateInputs
  (monthlyIncome emiCapacity interestRate loanTenure : R) : result unit :=
  if falsy monthlyIncome || ltb monthlyIncome 10000 then
    Throw "Monthly income must be at least ₹10,000"
  else if falsy emiCapacity || ltb emiCapacity 1000 then
    Throw "EMI capacity must be at least ₹1,000"
  else if leb monthlyIncome emiCapacity then
    Throw "EMI capacity must be less than monthly income"
  else if ltb (monthlyIncome * 0.8) emiCapacity then
    Throw "EMI capacity should not exceed 80% of monthly income"
  else if falsy interestRate || ltb interestRate 1 || ltb 30 interestRate then
    Throw "Interest rate must be between 1% and 30%"
  else if falsy loanTenure || ltb loanTenure 1 || ltb 30 loanTenure then
    Throw "Loan tenure must be between 1 and 30 years"
  else Ok tt.

Definition calculateLoanAmountFromEMI (emi annualROI months : R) : R :=
  let monthlyRate := annualROI / 12 / 100 in
  if eqb monthlyRate 0 then
    emi * months
  else
    let factor := Math_pow (1 + monthlyRate) months in
    let loanAmount := emi * ((factor - 1) / (monthlyRate * factor)) in
    loanAmount.

Definition calculateLoanEligibility
  (monthlyIncome emiCapacity interestRate loanTenure : R) : result Result :=
  validateInputs monthlyIncome emiCapacity interestRate loanTenure ;;;
  let months := loanTenure * 12 in
  let eligibleLoanAmount :=
    calculateLoanAmountFromEMI emiCapacity interestRate months in
  let monthlyROI := interestRate / 12 / 100 in
  let totalInterestPayable :=
    if ltb 0 monthlyROI then
      let totalPayableAmount := emiCapacity * months in
      totalPayableAmount - eligibleLoanAmount
    else 0 in
  let totalAmountPayable := eligibleLoanAmount + totalInterestPayable in
  let emiCapacityPercentage := (emiCapacity / monthlyIncome) * 100 in
  Ok {| monthlyIncome := monthlyIncome;
        emiCapacity := emiCapacity;
        emiCapacityPercentage := round2 emiCapacityPercentage;
        interestRate := interestRate;
        loanTenure := loanTenure;
        eligibleLoanAmount := round2 eligibleLoanAmount;
        maximumEMI := emiCapacity;
        totalInterestPayable := round2 totalInterestPayable;
        totalAmountPayable := round2 totalAmountPayable;
        eligibilityDetails :=
          {| incomeMultiplier := round2 (eligibleLoanAmount / monthlyIncome);
             debtToIncomeRatio := round2 emiCapacityPercentage |} |}.

End Loan.

(** ** The budget planner controller *)

Module Budget.

(** An element of the [expenses] array.  A field that is absent, or a
    [category] that is not a string, is [None]. *)
Record Expense : Type := mkExpense {
  category : option string;
  amount : option R
}.

Record Share : Type := mkShare {
  shareCategory : string;
  shareAmount : R;
  sharePercentage : R
}.

Record ChartItem : Type := mkChartItem {
  itemCategory : string;
  itemValue : R;
  itemPercentage : R
}.

Record Breakdown : Type := mkBreakdown {
  byCategory : list Share;
  chartData : list ChartItem
}.

Record Result : Type := mkResult {
  income : R;
  expenses : list Share;
  totalExpenses : R;
  savings : R;
  savingsPercentage : R;
  breakdown : Breakdown
}.

Record Savings : Type := mkSavings {
  savingsAmount : R;
  savingsShare : R;
  isDeficit : bool
}.

(** The index interpolated into a template string. *)
Definition indexString (index : nat) : string :=
  NilEmpty.string_of_uint (Nat.to_uint index).

(** [!exp.category || typeof exp.category !== 'string'] *)
Definition invalidCategory (exp : Expense) : bool :=
  match category exp with
  | None => true
  | Some c => String.eqb c EmptyString
  end.

(** [exp.amount < 0]; a comparison with [undefined] is false. *)
Definition negativeAmount (exp : Expense) : bool :=
  match amount exp with
  | None => false
  | Some a => ltb a 0
  end.

(** The callback of [expenses.forEach], from [index] on. *)
Fixpoint validateExpenses (index : nat) (expenses : list Expense)
  : result unit :=
  match expenses with
  | [] => Ok tt
  | exp :: rest =>
      if invalidCategory exp then
        Throw ("Expense at index " ++ indexString index
               ++ " must have a valid category")
      else if negativeAmount exp then
        Throw ("Expense amount at index " ++ indexString index
               ++ " cannot be negative")
      else validateExpenses (S index) rest
  end.

(** [expenses] is [None] when the argument is missing or not an array. *)
Definition validateBudgetInputs (income : R)
  (expenses : option (list Expense)) : result unit :=
  if falsy income || leb income 0 then
    Throw "Income must be greater than 0"
  else
    match expenses with
    | None => Throw "Expenses must be an array"
    | Some expenses => validateExpenses 0 expenses
    end.

(** [exp.amount || 0] *)
Definition amountOrZero (exp : Expense) : R :=
  match amount exp with
  | None => 0
  | Some a => if falsy a then 0 else a
  end.

(** [exp.category || 'Uncategorized'] *)
Definition categoryOrDefault (exp : Expense) : string :=
  match category exp with
  | None => "Uncategorized"
  | Some c => if String.eqb c EmptyString then "Uncategorized" else c
  end.

(** [expenses.reduce((sum, exp) => sum + (exp.amount || 0), 0)] *)
Definition sumAmounts (expenses : list Expense) : R :=
  fold_left (fun sum exp => sum + amountOrZero exp) expenses 0.

(** [.filter(exp => exp.amount > 0).map(exp => ({...}))] in one pass: an
    expense that passes the filter has a number as its amount. *)
Fixpoint withPercentage (totalExpenses : R) (expenses : list Expense)
  : list Share :=
  match expenses with
  | [] => []
  | exp :: rest =>
      match amount exp with
      | Some a =>
          if ltb 0 a then
            {| shareCategory := categoryOrDefault exp;
               shareAmount := a;
               sharePercentage :=
                 if ltb 0 totalExpenses then (a / totalExpenses) * 100
                 else 0 |}
              :: withPercentage totalExpenses rest
          else withPercentage totalExpenses rest
      | None => withPercentage totalExpenses rest
      end
  end.

(** [.sort((a, b) => b.amount - a.amount)]: the sort is stable, so a share
    goes in front of the first one that is not larger. *)
Fixpoint insertByAmount (x : Share) (sorted : list Share) : list Share :=
  match sorted with
  | [] => [x]
  | y :: rest =>
      if leb (shareAmount y) (shareAmount x) then x :: y :: rest
      else y :: insertByAmount x rest
  end.

Definition sortByAmount (shares : list Share) : list Share :=
  fold_right insertByAmount [] shares.

Definition roundShare (exp : Share) : Share :=
  {| shareCategory := shareCategory exp;
     shareAmount := round2 (shareAmount exp);
     sharePercentage := round2 (sharePercentage exp) |}.

Definition roundChartItem (item : ChartItem) : ChartItem :=
  {| itemCategory := itemCategory item;
     itemValue := round2 (itemValue item);
     itemPercentage := round2 (itemPercentage item) |}.

Definition toChartItem (exp : Share) : ChartItem :=
  {| itemCategory := shareCategory exp;
     itemValue := shareAmount exp;
     itemPercentage := sharePercentage exp |}.

Definition calculateBudget (income : R) (expenses : option (list Expense))
  : result Result :=
  validateBudgetInputs income expenses ;;;
  match expenses with
  | None => Throw "Expenses must be an array"
  | Some expenses =>
      let totalExpenses := sumAmounts expenses in
      let savings := income - totalExpenses in
      let savingsPercentage :=
        if ltb 0 income then (savings / income) * 100 else 0 in
      let expensesWithPercentage :=
        sortByAmount (withPercentage totalExpenses expenses) in
      let chartData := map toChartItem expensesWithPercentage in
      let totalExpensesRounded := round2 totalExpenses in
      let savingsRounded := round2 savings in
      let savingsPercentageRounded := round2 savingsPercentage in
      Ok {| income := income;
            expenses := map roundShare expensesWithPercentage;
            totalExpenses := totalExpensesRounded;
            savings := savingsRounded;
            savingsPercentage := savingsPercentageRounded;
            breakdown :=
              {| byCategory := map roundShare expensesWithPercentage;
                 chartData := map roundChartItem chartData |} |}
  end.

Definition calculateSavings (income totalExpenses : R) : Savings :=
  let savings := income - totalExpenses in
  let savingsPercentage :=
    if ltb 0 income then (savings / income) * 100 else 0 in
  {| savingsAmount := round2 savings;
     savingsShare := round2 savingsPercentage;
     isDeficit := ltb savings 0 |}.

Definition calculatePercentages (expenses : list Expense)
  (totalExpenses : R) : list Share :=
  map roundShare (sortByAmount (withPercentage totalExpenses expenses)).

End Budget.

(** ** src/routes/finance-tools.js

    The handlers of the EMI and FD routes.  [req.body] carries the numeric
    fields; the response is the status and the JSON object sent.  The
    handlers compute inline and do not call the controllers. *)

Module Routes.

Record Response (A : Type) : Type := mkResponse {
  status : nat;
  success : bool;
  data : option A;
  error : option string
}.
Arguments mkResponse {A} status success data error.
Arguments status {A} _.
Arguments success {A} _.
Arguments data {A} _.
Arguments error {A} _.

(** [res.status(400).json({ success: false, error })] *)
Definition badRequest {A : Type} (message : string) : Response A :=
  {| status := 400; success := false; data := None; error := Some message |}.

(** [res.json({ success: true, data })] *)
Definition sendData {A : Type} (mockData : A) : Response A :=
  {| status := 200; success := true; data := Some mockData; error := None |}.

Definition emiCalculatorRoute (loanAmount interestRate tenureMonths : R)
  : Response EMI.Result :=
  if falsy loanAmount || leb loanAmount 0 then
    badRequest "Loan amount must be greater than 0"
  else if falsy interestRate || ltb interestRate 0 || ltb 100 interestRate then
    badRequest "Interest rate must be between 0 and 100"
  else if falsy tenureMonths || leb tenureMonths 0
          || negb (Number_isInteger tenureMonths) then
    badRequest "Loan tenure must be a positive integer (in months)"
  else
    let monthlyRate := interestRate / (12 * 100) in
    let monthlyEMI :=
      if eqb monthlyRate 0 then loanAmount / tenureMonths
      else
        let factor := Math_pow (1 + monthlyRate) tenureMonths in
        (loanAmount * monthlyRate * factor) / (factor - 1) in
    let totalPayable := monthlyEMI * tenureMonths in
    let totalInterest := totalPayable - loanAmount in
    let mockData :=
      {| EMI.loanAmount := loanAmount;
         EMI.interestRate := interestRate;
         EMI.tenureMonths := tenureMonths;
         EMI.monthlyEMI := round2 monthlyEMI;
         EMI.totalInterest := round2 totalInterest;
         EMI.totalPayable := round2 totalPayable |} in
    sendData mockData.

Definition fdCalculatorRoute (principal interestRate tenure : R)
  : Response FD.Result :=
  if falsy principal || ltb principal 1000 then
    badRequest "Principal amount must be at least ₹1,000"
  else if falsy interestRate || ltb interestRate 1 || ltb 15 interestRate then
    badRequest "Interest rate must be between 1% and 15%"
  else if falsy tenure || leb tenure 0 || ltb 10 tenure then
    badRequest "Tenure must be between 1 and 10 years"
  else
    let COMPOUNDING_FREQUENCY := 4 in
    let rateDecimal := interestRate / 100 in
    let factor :=
      Math_pow (1 + rateDecimal / COMPOUNDING_FREQUENCY)
        (COMPOUNDING_FREQUENCY * tenure) in
    let maturityAmount := principal * factor in
    let totalInterestEarned := maturityAmount - principal in
    let effectiveRate :=
      (Math_pow (1 + rateDecimal / COMPOUNDING_FREQUENCY)
         COMPOUNDING_FREQUENCY - 1) * 100 in
    let mockData :=
      {| FD.principal := principal;
         FD.interestRate := interestRate;
         FD.tenure := tenure;
         FD.compoundingFrequency := COMPOUNDING_FREQUENCY;
         FD.maturityAmount := round2 maturityAmount;
         FD.totalInterestEarned := round2 totalInterestEarned;
         FD.effectiveRate := round2 effectiveRate |} in
    sendData mockData.

End Routes.

(** ** Quantities the statements are phrased with *)

Module Spec.

Definition Rsum (l : list R) : R := fold_right Rplus 0 l.

(** The loan balance that remains after [k] instalments of [emi] at the
    monthly rate [r], starting from [b]: every month the interest
    [b * r] is charged and [emi] is paid. *)
Fixpoint remainingBalance (r emi b : R) (k : nat) : R :=
  match k with
  | O => b
  | S k' => remainingBalance r emi (b - (emi - b * r)) k'
  end.

(** 1 + q + ... + q^(k-1) *)
Fixpoint geometric (q : R) (k : nat) : R :=
  match k with
  | O => 0
  | S k' => geometric q k' + q ^ k'
  end.

(** The breakdown entry of a full year [k] of simple interest: the
    principal stays, the flat yearly interest is added [k] times. *)
Definition simpleEntry (principal yearlyInterest : R) (k : nat)
  : Interest.YearEntry :=
  {| Interest.year := INR k;
     Interest.principalAtStart := principal;
     Interest.interestForYear := yearlyInterest;
     Interest.totalAtEnd := principal + yearlyInterest * INR k |}.

(** The breakdown entry of a full year [k] of compound interest with the
    yearly growth factor [q]. *)
Definition compoundEntry (principal q : R) (k : nat) : Interest.YearEntry :=
  {| Interest.year := INR k;
     Interest.principalAtStart := principal * q ^ (k - 1);
     Interest.interestForYear := principal * q ^ (k - 1) * (q - 1);
     Interest.totalAtEnd :=
       principal * q ^ (k - 1) + principal * q ^ (k - 1) * (q - 1) |}.

(** Each entry opens with the closing balance of the one before. *)
Fixpoint chained (l : list Interest.YearEntry) : Prop :=
  match l with
  | e1 :: ((e2 :: _) as rest) =>
      Interest.totalAtEnd e1 = Interest.principalAtStart e2 /\ chained rest
  | _ => True
  end.

End Spec.
Import Spec.

(** What a budget is expected to list, said without the code's helpers. *)

Module BudgetSpec.







End BudgetSpec.

(** * Properties *)

(** ** The primitives *)

Lemma ltb_true (x y : R) : x < y -> ltb x y = true.
Proof.
  intro H. unfold ltb.
  destruct (Rlt_dec x y); [reflexivity | contradiction].
Qed.

Lemma ltb_false (x y : R) : y <= x -> ltb x y = false.
Proof. intro H. unfold ltb. destruct (Rlt_dec x y); [lra | reflexivity]. Qed.

Lemma leb_true (x y : R) : x <= y -> leb x y = true.
Proof.
  intro H. unfold leb.
  destruct (Rle_dec x y); [reflexivity | contradiction].
Qed.

Lemma leb_false (x y : R) : y < x -> leb x y = false.
Proof. intro H. unfold leb. destruct (Rle_dec x y); [lra | reflexivity]. Qed.

Lemma eqb_true (x y : R) : x = y -> eqb x y = true.
Proof.
  intro H. unfold eqb.
  destruct (Req_dec_T x y); [reflexivity | contradiction].
Qed.

Lemma eqb_false (x y : R) : x <> y -> eqb x y = false.
Proof.
  intro H. unfold eqb.
  destruct (Req_dec_T x y); [contradiction | reflexivity].
Qed.

Lemma falsy_false (x : R) : x <> 0 -> falsy x = false.
Proof. apply eqb_false. Qed.

Lemma falsy_true (x : R) : x = 0 -> falsy x = true.
Proof. apply eqb_true. Qed.

Lemma Int_part_eq (x : R) (z : Z) : IZR z <= x < IZR z + 1 -> Int_part x = z.
Proof. intros [H1 H2]. symmetry. apply Int_part_spec. lra. Qed.

Lemma Int_part_IZR (z : Z) : Int_part (IZR z) = z.
Proof. apply Int_part_eq. lra. Qed.

Lemma Math_floor_eq (x : R) (z : Z) :
  IZR z <= x < IZR z + 1 -> Math_floor x = IZR z.
Proof. intro H. unfold Math_floor. now rewrite (Int_part_eq x z H). Qed.

Lemma Math_ceil_eq (x : R) (z : Z) :
  IZR z - 1 < x <= IZR z -> Math_ceil x = IZR z.
Proof.
  intro H. unfold Math_ceil. rewrite (Int_part_eq (- x) (- z)).
  - rewrite opp_IZR. lra.
  - rewrite opp_IZR. lra.
Qed.

Lemma Math_floor_bounds (x : R) : Math_floor x <= x < Math_floor x + 1.
Proof. unfold Math_floor. destruct (base_Int_part x). lra. Qed.

Lemma round2_eq (v : R) (z : Z) :
  IZR z <= v * 100 + / 2 < IZR z + 1 -> round2 v = IZR z / 100.
Proof.
  intro H. unfold round2, Math_round. now rewrite (Int_part_eq _ z H).
Qed.

(** [round2] moves a value by at most half a cent. *)
Lemma round2_close (v : R) : v - 0.005 < round2 v <= v + 0.005.
Proof.
  unfold round2, Math_round.
  destruct (base_Int_part (v * 100 + / 2)) as [H1 H2]. lra.
Qed.

Lemma Number_isInteger_INR (n : nat) : Number_isInteger (INR n) = true.
Proof.
  unfold Number_isInteger, Math_floor. apply eqb_true.
  now rewrite Int_part_INR, <- INR_IZR_INZ.
Qed.

Lemma for_range_INR (n : nat) : for_range 1 (INR n) = seq 1 n.
Proof.
  unfold for_range. rewrite Int_part_INR. f_equal. lia.
Qed.

(** The range of a [for] loop holds the counter values that pass its test. *)
Lemma for_range_spec (i : nat) (upto : R) :
  In i (for_range 1 upto) <-> (1 <= i)%nat /\ INR i <= upto.
Proof.
  unfold for_range. rewrite in_seq.
  destruct (base_Int_part upto) as [H1 H2].
  split.
  - intros [Hlo Hhi]. split; [exact Hlo |].
    assert (Hz : (Z.of_nat i <= Int_part upto)%Z) by lia.
    apply IZR_le in Hz. rewrite <- INR_IZR_INZ in Hz. lra.
  - intros [Hlo Hhi]. split; [exact Hlo |].
    assert (Hz : (Z.of_nat i < Int_part upto + 1)%Z).
    { apply lt_IZR. rewrite <- INR_IZR_INZ, plus_IZR. lra. }
    lia.
Qed.

Lemma Math_pow_pos (x y : R) : 0 < x -> Math_pow x y = Rpower x y.
Proof.
  intro H. unfold Math_pow.
  destruct (Rlt_dec 0 x); [reflexivity | contradiction].
Qed.

Lemma Math_pow_INR (x : R) (n : nat) : 0 < x -> Math_pow x (INR n) = x ^ n.
Proof. intro H. rewrite Math_pow_pos by exact H. now apply Rpower_pow. Qed.

(** Decides the comparisons of a goal whose operands [lra] can order. *)
Ltac js_compare :=
  repeat match goal with
    | |- context [ltb ?x ?y] =>
        first [ rewrite (ltb_true x y) by lra | rewrite (ltb_false x y) by lra ]
    | |- context [leb ?x ?y] =>
        first [ rewrite (leb_true x y) by lra | rewrite (leb_false x y) by lra ]
    | |- context [falsy ?x] =>
        first [ rewrite (falsy_false x) by lra | rewrite (falsy_true x) by lra ]
    | |- context [eqb ?x ?y] =>
        first [ rewrite (eqb_true x y) by lra | rewrite (eqb_false x y) by lra ]
    end.

(** ** EMI calculator *)

Lemma EMI_validateInputs_ok (P Rate : R) (n : nat) :
  0 < P -> 0 <= Rate <= 100 -> (0 < n)%nat ->
  EMI.validateInputs P Rate (INR n) = Ok tt.
Proof.
  intros HP HR Hn. apply lt_INR in Hn. simpl in Hn.
  unfold EMI.validateInputs. js_compare.
  rewrite Number_isInteger_INR. reflexivity.
Qed.

Lemma unroundedEMI_formula (P Rate : R) (n : nat) :
  0 <= Rate ->
  EMI.unroundedEMI P Rate (INR n) =
    if Req_dec_T (Rate / 1200) 0 then P / INR n
    else P * (Rate / 1200) * (1 + Rate / 1200) ^ n
         / ((1 + Rate / 1200) ^ n - 1).
Proof.
  intro HR. unfold EMI.unroundedEMI, eqb.
  replace (Rate / (12 * 100)) with (Rate / 1200) by lra.
  destruct (Req_dec_T (Rate / 1200) 0) as [E | E]; [reflexivity |].
  rewrite Math_pow_INR by lra. reflexivity.
Qed.







(** ** Amortization schedule *)

Lemma Rabs_le_iff (a b : R) : Rabs a <= b <-> - b <= a <= b.
Proof. unfold Rabs. destruct (Rcase_abs a); lra. Qed.

Lemma geometric_closed (q : R) (k : nat) : (q - 1) * geometric q k = q ^ k - 1.
Proof.
  induction k as [| k IH]; simpl.
  - lra.
  - rewrite Rmult_plus_distr_l, IH. lra.
Qed.

Lemma remainingBalance_closed (r emi b : R) (k : nat) :
  remainingBalance r emi b k = b * (1 + r) ^ k - emi * geometric (1 + r) k.
Proof.
  revert b. induction k as [| k IH]; intro b; simpl.
  - lra.
  - rewrite IH.
    assert (H : (1 + r) ^ S k = (1 + r) ^ k * (1 + r)) by (simpl; lra).
    nra.
Qed.

Lemma remainingBalance_succ (r emi b : R) (k : nat) :
  remainingBalance r emi b (S k) =
    remainingBalance r emi b k - (emi - remainingBalance r emi b k * r).
Proof.
  revert b. induction k as [| k IH]; intro b.
  - reflexivity.
  - change (remainingBalance r emi b (S (S k)))
      with (remainingBalance r emi (b - (emi - b * r)) (S k)).
    rewrite IH. reflexivity.
Qed.

Lemma pow_gt_1 (x : R) (n : nat) : 0 < x -> (0 < n)%nat -> 1 < (1 + x) ^ n.
Proof.
  intros Hx Hn. destruct n as [| n]; [lia |].
  assert (H : 1 <= (1 + x) ^ n) by (apply pow_R1_Rle; lra).
  simpl. nra.
Qed.

Lemma scheduleLoop_length (r emi : R) (months : list nat) (b : R) :
  List.length (EMI.scheduleLoop r emi months b) = List.length months.
Proof.
  revert b. induction months as [| m rest IH]; intro b; simpl.
  - reflexivity.
  - now rewrite IH.
Qed.

(** The [k]-th entry of the loop started at month [m0] with balance [b]. *)
Lemma scheduleLoop_nth (r emi : R) (len m0 k : nat) (b : R) :
  (k < len)%nat ->
  nth_error (EMI.scheduleLoop r emi (seq m0 len) b) k =
    Some {| EMI.month := (m0 + k)%nat;
            EMI.principal :=
              round2 (emi - remainingBalance r emi b k * r);
            EMI.interest := round2 (remainingBalance r emi b k * r);
            EMI.balance :=
              Math_max 0 (round2 (remainingBalance r emi b (S k))) |}.
Proof.
  revert m0 k b. induction len as [| len IH]; intros m0 k b Hk; [lia |].
  destruct k as [| k].
  - simpl. rewrite Nat.add_0_r. reflexivity.
  - cbn [seq EMI.scheduleLoop nth_error].
    rewrite IH by lia. replace (S m0 + k)%nat with (m0 + S k)%nat by lia.
    reflexivity.
Qed.


(** The rounded principal components add up to what the unrounded balance
    lost, up to half a cent per month. *)
Lemma scheduleLoop_principal_sum (r emi : R) (months : list nat) (b : R) :
  Rabs (Rsum (map EMI.principal (EMI.scheduleLoop r emi months b))
        - (b - remainingBalance r emi b (List.length months)))
    <= INR (List.length months) * 0.005.
Proof.
  revert b. induction months as [| m rest IH]; intro b.
  - simpl. replace (0 - (b - b)) with 0 by lra. rewrite Rabs_R0. lra.
  - cbn [EMI.scheduleLoop map Rsum fold_right List.length remainingBalance
           EMI.principal].
    fold (Rsum (map EMI.principal
                  (EMI.scheduleLoop r emi rest (b - (emi - b * r))))).
    specialize (IH (b - (emi - b * r))).
    pose proof (round2_close (emi - b * r)) as Hc.
    rewrite S_INR.
    apply Rabs_le_iff. apply Rabs_le_iff in IH. lra.
Qed.

Lemma round2_0 : round2 0 = 0.
Proof. rewrite (round2_eq 0 0) by lra. lra. Qed.

Lemma Math_max_0_nonneg (x : R) : 0 <= x -> Math_max 0 x = x.
Proof.
  intro H. unfold Math_max.
  destruct (Rle_dec 0 x); [reflexivity | contradiction].
Qed.







(** ** Loan eligibility: the debt-to-income policy *)

(** Splits on the first comparison that the goal still tests. *)
Ltac js_split :=
  unfold falsy, ltb, leb, eqb;
  repeat (match goal with
          | |- context [Rlt_dec ?a ?b] => destruct (Rlt_dec a b)
          | |- context [Rle_dec ?a ?b] => destruct (Rle_dec a b)
          | |- context [Req_dec_T ?a ?b] => destruct (Req_dec_T a b)
          end; cbn [orb negb andb]; try (exfalso; lra)).

Lemma Loan_validateInputs_rejects (income emi rate tenure : R) :
  income <= emi \/ income * 0.8 < emi ->
  throws (Loan.validateInputs income emi rate tenure).
Proof.
  intro H. unfold throws, Loan.validateInputs.
  js_split; try (eexists; reflexivity).
  all: exfalso; lra.
Qed.

Lemma Loan_validateInputs_ok (income emi rate tenure : R) :
  10000 <= income -> 1000 <= emi -> emi < income -> emi <= income * 0.8 ->
  1 <= rate <= 30 -> 1 <= tenure <= 30 ->
  Loan.validateInputs income emi rate tenure = Ok tt.
Proof.
  intros. unfold Loan.validateInputs. js_compare. reflexivity.
Qed.

Lemma bind_throw {A B : Type} (c : result A) (k : A -> result B) (m : string) :
  c = Throw m -> bind c k = Throw m.
Proof. intros ->. reflexivity. Qed.

(** C8: calculateLoanEligibility validates before it computes; an EMI
    capacity that is not below the monthly income, or that exceeds 80% of
    it, makes validation throw and no result is returned (with the income
    and capacity minima met, the message is the one of the violated
    debt-to-income rule); inputs that meet both constraints and the other
    range checks pass validation and a result is returned. *)
Theorem C8_debt_to_income_policy :
  forall income emi rate tenure : R,
    (income <= emi \/ income * 0.8 < emi ->
     exists msg,
       Loan.validateInputs income emi rate tenure = Throw msg
       /\ Loan.calculateLoanEligibility income emi rate tenure = Throw msg)
    /\ (10000 <= income -> 1000 <= emi -> income <= emi ->
        Loan.calculateLoanEligibility income emi rate tenure =
          Throw "EMI capacity must be less than monthly income")
    /\ (10000 <= income -> 1000 <= emi -> emi < income ->
        income * 0.8 < emi ->
        Loan.calculateLoanEligibility income emi rate tenure =
          Throw "EMI capacity should not exceed 80% of monthly income")
    /\ (10000 <= income -> 1000 <= emi -> emi < income ->
        emi <= income * 0.8 -> 1 <= rate <= 30 -> 1 <= tenure <= 30 ->
        Loan.validateInputs income emi rate tenure = Ok tt
        /\ exists res,
            Loan.calculateLoanEligibility income emi rate tenure = Ok res).
Proof.
  intros income emi rate tenure. repeat split.
  - intro H. destruct (Loan_validateInputs_rejects income emi rate tenure H)
      as [msg Hmsg].
    exists msg. split; [exact Hmsg |].
    unfold Loan.calculateLoanEligibility. now apply bind_throw.
  - intros. unfold Loan.calculateLoanEligibility. apply bind_throw.
    unfold Loan.validateInputs. js_compare. reflexivity.
  - intros. unfold Loan.calculateLoanEligibility. apply bind_throw.
    unfold Loan.validateInputs. js_compare. reflexivity.
  - now apply Loan_validateInputs_ok.
  - unfold Loan.calculateLoanEligibility.
    rewrite Loan_validateInputs_ok by assumption. cbn [bind].
    eexists. reflexivity.
Qed.

Lemma C8_debt_to_income_policy_witness :
  Loan.calculateLoanEligibility 50000 45000 10 20 =
    Throw "EMI capacity should not exceed 80% of monthly income"
  /\ Loan.validateInputs 50000 20000 10 20 = Ok tt.
Proof.
  split.
  - apply (C8_debt_to_income_policy 50000 45000 10 20); lra.
  - apply (C8_debt_to_income_policy 50000 20000 10 20); lra.
Defined.

(** ** Validation of the rate by the annuity calculators *)




Lemma bind_ok_inv {A B : Type} (c : result A) (k : A -> result B) (b : B) :
  bind c k = Ok b -> exists a, c = Ok a /\ k a = Ok b.
Proof. destruct c as [a | m]; cbn; intro H; [eauto | discriminate H]. Qed.








(** ** Zero rate and the limit of the annuity formulas *)

Lemma Rpower_base_1 (y : R) : Rpower 1 y = 1.
Proof. unfold Rpower. rewrite ln_1, Rmult_0_r. apply exp_0. Qed.

Lemma Rabs_lt_iff (a b : R) : Rabs a < b <-> - b < a < b.
Proof. unfold Rabs. destruct (Rcase_abs a); lra. Qed.

(** A limit only depends on the function near the point. *)
Lemma limit1_local (f : R -> R) (D : R -> Prop) (l x0 c : R) :
  0 < c ->
  limit1_in f (fun x => D x /\ Rabs (x - x0) < c) l x0 ->
  limit1_in f D l x0.
Proof.
  intros Hc H eps Heps. destruct (H eps Heps) as [alp [Halp Hf]].
  exists (Rmin alp c). split.
  - apply Rmin_glb_lt; lra.
  - intros x [HD Hx]. simpl in Hx. unfold Rdist in Hx. apply Hf.
    pose proof (Rmin_l alp c). pose proof (Rmin_r alp c).
    simpl. unfold Rdist. repeat split; [exact HD | lra | lra].
Qed.

Section RateToZero.

Variables M N : R.

Let monthly (annualROI : R) : R := annualROI / 12 / 100.
Let quotient (annualROI : R) : R :=
  (Rpower (1 + monthly annualROI) N - 1) / monthly annualROI.
Let nonzero (annualROI : R) : Prop := annualROI <> 0.

Lemma monthly_limit : limit1_in monthly nonzero 0 0.
Proof.
  intros eps Heps. exists eps. split; [exact Heps |].
  intros x [_ Hx]. simpl in *. unfold Rdist, monthly in *.
  apply Rabs_lt_iff. apply Rabs_lt_iff in Hx. lra.
Qed.

(** ((1 + r)^N - 1) / r tends to N: the derivative of x^N at 1. *)
Lemma quotient_limit : limit1_in quotient nonzero N 0.
Proof.
  intros eps Heps.
  destruct (derivable_pt_lim_power 1 N Rlt_0_1 eps Heps) as [delta H].
  exists (delta * 1200). split.
  - pose proof (cond_pos delta). lra.
  - intros x [Hx Hd]. simpl in *. unfold Rdist in *.
    specialize (H (monthly x)). rewrite !Rpower_base_1 in H.
    replace (N * 1) with N in H by lra.
    apply H.
    + unfold monthly, nonzero in *. lra.
    + unfold monthly. apply Rabs_lt_iff. apply Rabs_lt_iff in Hd. lra.
Qed.

Lemma factor_limit :
  limit1_in (fun a => Rpower (1 + monthly a) N) nonzero 1 0.
Proof.
  apply limit1_ext with (f := fun a => 1 + monthly a * quotient a).
  - intros x Hx. unfold quotient. field. unfold monthly, nonzero in *. lra.
  - replace 1 with (1 + 0 * N) at 1 by lra.
    apply limit_plus.
    + apply (limit_free (fun _ => 1) nonzero 0 0).
    + apply limit_mul; [exact monthly_limit | exact quotient_limit].
Qed.

Lemma Retirement_rate_limit :
  limit1_in (fun a => Retirement.calculateFutureValueOfAnnuity M a N)
    nonzero (M * N) 0.
Proof.
  apply limit1_local with (c := 1200); [lra |].
  apply limit1_ext with (f := fun a => M * quotient a).
  - intros x [Hx Hc]. rewrite Rminus_0_r in Hc. apply Rabs_lt_iff in Hc.
    unfold Retirement.calculateFutureValueOfAnnuity, quotient, monthly,
      nonzero in *.
    rewrite eqb_false by lra. rewrite Math_pow_pos by lra. reflexivity.
  - apply (limit1_imp _ nonzero); [intros x [Hx _]; exact Hx |].
    apply limit_mul; [| exact quotient_limit].
    apply (limit_free (fun _ => M) nonzero 0 0).
Qed.

Lemma SIP_rate_limit :
  limit1_in (fun a => SIP.calculateFutureValueOfAnnuity M a N)
    nonzero (M * N) 0.
Proof.
  apply limit1_local with (c := 1200); [lra |].
  apply limit1_ext with (f := fun a => M * quotient a * (1 + monthly a)).
  - intros x [Hx Hc]. rewrite Rminus_0_r in Hc. apply Rabs_lt_iff in Hc.
    unfold SIP.calculateFutureValueOfAnnuity, quotient, monthly,
      nonzero in *.
    rewrite eqb_false by lra. rewrite Math_pow_pos by lra. reflexivity.
  - apply (limit1_imp _ nonzero); [intros x [Hx _]; exact Hx |].
    replace (M * N) with (M * N * (1 + 0)) by lra.
    apply limit_mul.
    + apply limit_mul; [| exact quotient_limit].
      apply (limit_free (fun _ => M) nonzero 0 0).
    + apply limit_plus; [| exact monthly_limit].
      apply (limit_free (fun _ => 1) nonzero 0 0).
Qed.

Lemma Loan_rate_limit :
  limit1_in (fun a => Loan.calculateLoanAmountFromEMI M a N)
    nonzero (M * N) 0.
Proof.
  apply limit1_local with (c := 1200); [lra |].
  apply limit1_ext
    with (f := fun a => M * (quotient a * / Rpower (1 + monthly a) N)).
  - intros x [Hx Hc]. rewrite Rminus_0_r in Hc. apply Rabs_lt_iff in Hc.
    unfold Loan.calculateLoanAmountFromEMI, quotient, monthly, nonzero in *.
    rewrite eqb_false by lra. rewrite Math_pow_pos by lra.
    assert (Hp : Rpower (1 + x / 12 / 100) N <> 0).
    { unfold Rpower. apply Rgt_not_eq, exp_pos. }
    field. split; [exact Hp | lra].
  - apply (limit1_imp _ nonzero); [intros x [Hx _]; exact Hx |].
    replace (M * N) with (M * (N * / 1)) by (field; lra).
    apply limit_mul; [apply (limit_free (fun _ => M) nonzero 0 0) |].
    apply limit_mul; [exact quotient_limit |].
    apply limit_inv; [exact factor_limit | lra].
Qed.

End RateToZero.

(** C4: at rate 0 the annuity helpers return M x N (future value of the
    SIP and of the retirement corpus, loan amount from an EMI), and M x N
    is the limit of the non-zero-rate formula of each as the rate tends
    to 0. *)
Theorem C4_zero_rate_degeneracy :
  forall M N : R,
    SIP.calculateFutureValueOfAnnuity M 0 N = M * N
    /\ Retirement.calculateFutureValueOfAnnuity M 0 N = M * N
    /\ Loan.calculateLoanAmountFromEMI M 0 N = M * N
    /\ limit1_in (fun rate => SIP.calculateFutureValueOfAnnuity M rate N)
         (fun rate => rate <> 0) (M * N) 0
    /\ limit1_in (fun rate => Retirement.calculateFutureValueOfAnnuity M rate N)
         (fun rate => rate <> 0) (M * N) 0
    /\ limit1_in (fun rate => Loan.calculateLoanAmountFromEMI M rate N)
         (fun rate => rate <> 0) (M * N) 0.
Proof.
  intros M N.
  unfold SIP.calculateFutureValueOfAnnuity at 1,
    Retirement.calculateFutureValueOfAnnuity at 1,
    Loan.calculateLoanAmountFromEMI at 1.
  rewrite eqb_true by lra.
  repeat split.
  - apply SIP_rate_limit.
  - apply Retirement_rate_limit.
  - apply Loan_rate_limit.
Qed.

(** ** Reverse EMI *)

Lemma Rpower_gt_1 (x y : R) : 1 < x -> 0 < y -> 1 < Rpower x y.
Proof.
  intros Hx Hy. rewrite <- (Rpower_O x) by lra. now apply Rpower_lt.
Qed.

(** C5: for P > 0, R > 0 and N >= 1 the loan amount that
    calculateLoanAmountFromEMI derives from the unrounded instalment of
    calculateEMI for (P, R, N), at the same R and N, is P again (exactly,
    in real arithmetic). *)
Theorem C5_reverse_emi_round_trip :
  forall P Rate N : R,
    0 < P -> 0 < Rate -> 1 <= N ->
    Loan.calculateLoanAmountFromEMI (EMI.unroundedEMI P Rate N) Rate N = P.
Proof.
  intros P Rate N HP HR HN.
  unfold Loan.calculateLoanAmountFromEMI, EMI.unroundedEMI.
  replace (Rate / (12 * 100)) with (Rate / 12 / 100) by (field; lra).
  set (r := Rate / 12 / 100).
  assert (Hr : 0 < r) by (unfold r; lra).
  rewrite eqb_false by lra. rewrite Math_pow_pos by lra.
  assert (Hf : 1 < Rpower (1 + r) N) by (apply Rpower_gt_1; lra).
  set (f := Rpower (1 + r) N) in *.
  field. repeat split; lra.
Qed.

Lemma C5_reverse_emi_round_trip_witness :
  Loan.calculateLoanAmountFromEMI (EMI.unroundedEMI 100000 10 12) 10 12
  = 100000.
Proof.
  apply C5_reverse_emi_round_trip; lra.
Defined.

(** ** Fixed deposit *)

Lemma FD_validateInputs_ok (P Rate t : R) :
  1000 <= P -> 1 <= Rate <= 15 -> 0 < t <= 10 ->
  FD.validateInputs P Rate t = Ok tt.
Proof.
  intros. unfold FD.validateInputs. js_compare. reflexivity.
Qed.

Lemma calculateEffectiveRate_quarterly (Rate : R) :
  0 <= Rate ->
  FD.calculateEffectiveRate Rate 4 = ((1 + Rate / 100 / 4) ^ 4 - 1) * 100.
Proof.
  intro HR. unfold FD.calculateEffectiveRate.
  replace 4 with (INR 4) at 2 by (simpl; lra).
  rewrite Math_pow_INR by lra. reflexivity.
Qed.



(** ** Retirement corpus *)

Lemma Retirement_validateInputs_ok (ca ra ms roi : R) :
  18 <= ca <= 100 -> 40 <= ra <= 100 -> ca < ra -> 0 < ms -> 1 <= roi <= 20 ->
  Retirement.validateInputs ca ra ms roi = Ok tt.
Proof.
  intros. unfold Retirement.validateInputs. js_compare. reflexivity.
Qed.

(** C10: for valid input calculateCorpus returns, and its
    monthlyPensionEstimate is the unrounded corpus divided by 240 (20 years
    of 12 months), rounded to two decimals. *)
Theorem C10_monthly_pension_estimate :
  forall currentAge retirementAge monthlySavings expectedROI : R,
    18 <= currentAge <= 100 -> 40 <= retirementAge <= 100 ->
    currentAge < retirementAge -> 0 < monthlySavings ->
    1 <= expectedROI <= 20 ->
    let corpus :=
      Retirement.calculateFutureValueOfAnnuity monthlySavings expectedROI
        ((retirementAge - currentAge) * 12) in
    exists res,
      Retirement.calculateCorpus currentAge retirementAge monthlySavings
        expectedROI = Ok res
      /\ Retirement.retirementCorpus res = round2 corpus
      /\ Retirement.monthlyPensionEstimate res = round2 (corpus / 240).
Proof.
  intros ca ra ms roi Hca Hra Hlt Hms Hroi corpus.
  unfold Retirement.calculateCorpus.
  rewrite Retirement_validateInputs_ok by assumption. cbn [bind].
  eexists. split; [reflexivity |].
  cbn [Retirement.retirementCorpus Retirement.monthlyPensionEstimate].
  fold corpus. split; [reflexivity |]. f_equal. lra.
Qed.

Lemma C10_monthly_pension_estimate_witness :
  exists res,
    Retirement.calculateCorpus 30 60 10000 12 = Ok res
    /\ Retirement.retirementCorpus res =
         round2 (Retirement.calculateFutureValueOfAnnuity 10000 12
                   ((60 - 30) * 12))
    /\ Retirement.monthlyPensionEstimate res =
         round2 (Retirement.calculateFutureValueOfAnnuity 10000 12
                   ((60 - 30) * 12) / 240).
Proof.
  apply (C10_monthly_pension_estimate 30 60 10000 12); lra.
Defined.

(** ** Year-wise breakdown of the interest calculator *)

Lemma Math_floor_INR (time : R) :
  0 <= time -> Math_floor time = INR (Z.to_nat (Int_part time)).
Proof.
  intro H. unfold Math_floor. rewrite INR_IZR_INZ, Z2Nat.id; [reflexivity |].
  destruct (base_Int_part time) as [_ H2].
  assert (Hz : (-1 < Int_part time)%Z) by (apply lt_IZR; lra). lia.
Qed.

(** The loop range [1 .. ceil time] reaches at least [floor time]. *)
Lemma ceil_range (time : R) :
  0 <= time ->
  exists C : nat,
    for_range 1 (Math_ceil time) = seq 1 C
    /\ (Z.to_nat (Int_part time) <= C)%nat.
Proof.
  intro H. unfold Math_ceil. rewrite <- opp_IZR.
  set (c := (- Int_part (- time))%Z).
  exists (Z.to_nat c). split.
  - unfold for_range. rewrite Int_part_IZR. f_equal. lia.
  - destruct (base_Int_part time) as [H1 _].
    destruct (base_Int_part (- time)) as [H2 _].
    assert (Hz : (Int_part time <= c)%Z).
    { apply le_IZR. unfold c. rewrite opp_IZR. lra. }
    lia.
Qed.

Lemma simpleLoop_full_years (p time yI : R) (F : nat) :
  Math_floor time = INR F ->
  forall len m : nat,
    (m <= F)%nat -> (F < m + len)%nat ->
    Interest.simpleLoop p time yI (seq m len) =
      map (simpleEntry p yI) (seq m (S F - m)).
Proof.
  intros HF. pose proof (Math_floor_bounds time) as Hb. rewrite HF in Hb.
  induction len as [| len IH]; intros m Hm Hlen; [lia |].
  cbn [seq Interest.simpleLoop].
  assert (Hle : INR m <= INR F) by (apply le_INR; exact Hm).
  rewrite (ltb_false time (INR m)) by lra. rewrite HF.
  destruct (Nat.eq_dec m F) as [-> | Hne].
  - rewrite eqb_true by reflexivity.
    replace (S F - F)%nat with 1%nat by lia. reflexivity.
  - rewrite eqb_false by (intro E; apply INR_eq in E; contradiction).
    rewrite IH by lia.
    replace (S F - m)%nat with (S (S F - S m)) by lia. reflexivity.
Qed.

Lemma compoundLoop_full_years (rate time : R) (F : nat) :
  Math_floor time = INR F ->
  forall (len m : nat) (p : R),
    (1 <= m <= F)%nat -> (F < m + len)%nat ->
    Interest.compoundLoop rate time (seq m len)
      (p * Math_pow (1 + rate / 100) 1 ^ (m - 1)) =
      map (compoundEntry p (Math_pow (1 + rate / 100) 1)) (seq m (S F - m)).
Proof.
  intros HF. pose proof (Math_floor_bounds time) as Hb. rewrite HF in Hb.
  set (q := Math_pow (1 + rate / 100) 1).
  induction len as [| len IH]; intros m p Hm Hlen; [lia |].
  cbn [seq Interest.compoundLoop].
  assert (Hle : INR m <= INR F) by (apply le_INR; lia).
  rewrite (ltb_false time (INR m)) by lra. rewrite HF. fold q.
  destruct (Nat.eq_dec m F) as [-> | Hne].
  - rewrite eqb_true by reflexivity.
    replace (S F - F)%nat with 1%nat by lia. reflexivity.
  - rewrite eqb_false by (intro E; apply INR_eq in E; contradiction).
    replace (p * q ^ (m - 1) + p * q ^ (m - 1) * (q - 1))
      with (p * q ^ (S m - 1)).
    2:{ replace (S m - 1)%nat with (S (m - 1)) by lia. simpl. lra. }
    rewrite IH by lia.
    replace (S F - m)%nat with (S (S F - S m)) by lia.
    cbn [seq map]. f_equal. unfold compoundEntry. f_equal.
    replace (S m - 1)%nat with (S (m - 1)) by lia. simpl. lra.
Qed.

(** From one year on, the breakdown holds the full years up to
    [floor time] and nothing else. *)
Lemma breakdown_full_years (p rate time : R) (ty : string) :
  1 <= time ->
  Interest.generateYearWiseBreakdown p rate time ty =
    if String.eqb ty "simple" then
      map (simpleEntry p (p * rate / 100)) (seq 1 (Z.to_nat (Int_part time)))
    else
      map (compoundEntry p (Math_pow (1 + rate / 100) 1))
        (seq 1 (Z.to_nat (Int_part time))).
Proof.
  intro Ht. unfold Interest.generateYearWiseBreakdown.
  destruct (ceil_range time) as [C [HC HFC]]; [lra |]. rewrite HC.
  set (F := Z.to_nat (Int_part time)) in *.
  assert (HF : Math_floor time = INR F) by (apply Math_floor_INR; lra).
  assert (H1 : (1 <= F)%nat).
  { apply INR_le. rewrite <- HF. simpl.
    pose proof (Math_floor_bounds time) as Hb.
    unfold Math_floor in *.
    assert (Hz : (0 < Int_part time)%Z) by (apply lt_IZR; lra).
    apply IZR_le. lia. }
  destruct (String.eqb ty "simple").
  - rewrite (simpleLoop_full_years p time _ F HF) by lia.
    replace (S F - 1)%nat with F by lia. reflexivity.
  - pose proof (compoundLoop_full_years rate time F HF C 1 p) as H.
    replace (p * Math_pow (1 + rate / 100) 1 ^ (1 - 1)) with p in H
      by (simpl; lra).
    rewrite H by lia.
    replace (S F - 1)%nat with F by lia. reflexivity.
Qed.

Lemma nth_error_map_seq {A : Type} (h : nat -> A) (len m k : nat) :
  (k < len)%nat -> nth_error (map h (seq m len)) k = Some (h (m + k)%nat).
Proof.
  revert m k. induction len as [| len IH]; intros m k Hk; [lia |].
  destruct k as [| k]; cbn [seq map nth_error].
  - now rewrite Nat.add_0_r.
  - rewrite IH by lia. f_equal. f_equal. lia.
Qed.

Lemma Math_pow_1 (x : R) : 0 < x -> Math_pow x 1 = x.
Proof. intro H. rewrite Math_pow_pos by exact H. now apply Rpower_1. Qed.

Lemma Int_part_2_5 : Int_part 2.5 = 2%Z.
Proof. apply Int_part_eq. lra. Qed.

(** The breakdown for two and a half years: the loop leaves at year 2. *)
Lemma breakdown_1000_10_2_5 :
  Interest.generateYearWiseBreakdown 1000 10 2.5 "simple" =
    [ {| Interest.year := 1; Interest.principalAtStart := 1000;
         Interest.interestForYear := 100; Interest.totalAtEnd := 1100 |};
      {| Interest.year := 2; Interest.principalAtStart := 1000;
         Interest.interestForYear := 100; Interest.totalAtEnd := 1200 |} ]
  /\ Interest.totalAmount (Interest.calculateSimpleInterest 1000 10 2.5)
     = 1250.
Proof.
  split.
  - rewrite breakdown_full_years by lra. rewrite Int_part_2_5.
    change (Z.to_nat 2) with 2%nat.
    cbn [String.eqb Ascii.eqb Bool.eqb seq map].
    unfold simpleEntry. cbn [INR]. repeat f_equal; lra.
  - unfold Interest.calculateSimpleInterest. cbn. lra.
Qed.

(** C2 (the code departs from it): for a tenure of one year or more
    that is not a whole number, the breakdown has floor(T) entries, for the
    years 1 to floor(T): the loop leaves at year floor(T), before the
    iteration of year ceil(T) = floor(T) + 1, and no entry for the partial
    year is produced. *)
Theorem C2_breakdown_stops_at_floor :
  forall (p rate time : R) (ty : string),
    1 <= time -> Math_floor time <> time ->
    let breakdown := Interest.generateYearWiseBreakdown p rate time ty in
    map Interest.year breakdown
      = map INR (seq 1 (Z.to_nat (Int_part time)))
    /\ INR (List.length breakdown) = Math_floor time
    /\ Math_ceil time = Math_floor time + 1
    /\ ~ In time (map Interest.year breakdown).
Proof.
  intros p rate time ty Ht Hfrac breakdown.
  assert (HF : Math_floor time = INR (Z.to_nat (Int_part time)))
    by (apply Math_floor_INR; lra).
  assert (Hy : map Interest.year breakdown
               = map INR (seq 1 (Z.to_nat (Int_part time)))).
  { unfold breakdown. rewrite breakdown_full_years by exact Ht.
    destruct (String.eqb ty "simple"); rewrite map_map; reflexivity. }
  pose proof (Math_floor_bounds time) as Hb.
  split; [exact Hy | split; [| split]].
  - rewrite <- (length_map Interest.year), Hy, length_map, length_seq.
    now rewrite HF.
  - unfold Math_floor in *.
    rewrite (Math_ceil_eq time (Int_part time + 1)); rewrite plus_IZR; lra.
  - rewrite Hy. rewrite in_map_iff. intros [k [Hk _]].
    apply Hfrac. rewrite <- Hk. unfold Math_floor.
    now rewrite Int_part_INR, <- INR_IZR_INZ.
Qed.

Lemma C2_breakdown_stops_at_floor_witness :
  INR (List.length (Interest.generateYearWiseBreakdown 1000 10 2.5 "simple"))
  = Math_floor 2.5
  /\ Math_ceil 2.5 = Math_floor 2.5 + 1.
Proof.
  assert (H1 : 1 <= 2.5) by lra.
  assert (H2 : Math_floor 2.5 <> 2.5).
  { unfold Math_floor. rewrite Int_part_2_5. lra. }
  destruct (C2_breakdown_stops_at_floor 1000 10 2.5 "simple" H1 H2)
    as [_ [Hlen [Hceil _]]].
  split; [exact Hlen | exact Hceil].
Defined.

(** ** The breakdown returned by calculateInterest *)

Lemma Interest_validateInputs_ok (p rate time : R) (ty : string) :
  0 < p -> 0 <= rate <= 100 -> 0 < time <= 100 ->
  ty = "simple" \/ ty = "compound" ->
  Interest.validateInputs p rate time ty = Ok tt.
Proof.
  intros Hp Hr Ht Hty. unfold Interest.validateInputs. js_compare.
  destruct Hty as [-> | ->]; reflexivity.
Qed.

(** Below one year the breakdown is the single prorated entry. *)
Lemma breakdown_below_one_year (p rate time : R) (ty : string) :
  0 < time < 1 ->
  Interest.generateYearWiseBreakdown p rate time ty =
    if String.eqb ty "simple" then
      [ {| Interest.year := time;
           Interest.principalAtStart := p;
           Interest.interestForYear := p * rate / 100 * (time - 0);
           Interest.totalAtEnd := p + p * rate / 100 * time |} ]
    else
      [ {| Interest.year := time;
           Interest.principalAtStart := p;
           Interest.interestForYear :=
             p * (Math_pow (1 + rate / 100) (time - 0) - 1);
           Interest.totalAtEnd :=
             p + p * (Math_pow (1 + rate / 100) (time - 0) - 1) |} ].
Proof.
  intro Ht. unfold Interest.generateYearWiseBreakdown.
  rewrite (Math_ceil_eq time 1) by lra.
  assert (Hrange : for_range 1 1 = [1%nat]).
  { replace 1 with (INR 1) by (simpl; lra). apply for_range_INR. }
  rewrite !Hrange.
  cbn [Interest.simpleLoop Interest.compoundLoop INR].
  rewrite (Math_floor_eq time 0) by lra.
  rewrite (ltb_true time 1) by lra. rewrite (eqb_false 1 0) by lra.
  reflexivity.
Qed.

Lemma compound_entries_chained (p q : R) (len m : nat) :
  (1 <= m)%nat ->
  chained (map Interest.roundEntry (map (compoundEntry p q) (seq m len))).
Proof.
  revert m. induction len as [| len IH]; intros m Hm; [exact I |].
  destruct len as [| len]; [exact I |].
  specialize (IH (S m) ltac:(lia)).
  cbn [seq map] in IH |- *. cbn [chained]. split; [| exact IH].
  cbn [Interest.roundEntry compoundEntry Interest.totalAtEnd
         Interest.principalAtStart].
  f_equal. replace (S m - 1)%nat with (S (m - 1)) by lia. simpl. lra.
Qed.

Lemma calculateInterest_10000_5_2_simple :
  Interest.calculateInterest 10000 5 2 "simple" =
    Ok {| Interest.principal := 10000; Interest.interestRate := 5;
          Interest.timePeriod := 2; Interest.interestType := "simple";
          Interest.interestAmount := 1000;
          Interest.resultTotalAmount := 11000;
          Interest.growthRate := 10;
          Interest.yearWiseBreakdown :=
            [ {| Interest.year := 1; Interest.principalAtStart := 10000;
                 Interest.interestForYear := 500;
                 Interest.totalAtEnd := 10500 |};
              {| Interest.year := 2; Interest.principalAtStart := 10000;
                 Interest.interestForYear := 500;
                 Interest.totalAtEnd := 11000 |} ] |}.
Proof.
  unfold Interest.calculateInterest.
  rewrite Interest_validateInputs_ok by (try lra; now left).
  cbn [bind]. rewrite breakdown_full_years by lra.
  rewrite (Int_part_eq 2 2) by lra. change (Z.to_nat 2) with 2%nat.
  cbn [String.eqb Ascii.eqb Bool.eqb seq map].
  unfold simpleEntry, Interest.roundEntry, Interest.calculateSimpleInterest.
  cbn [Interest.interest Interest.totalAmount Interest.year
         Interest.principalAtStart Interest.interestForYear
         Interest.totalAtEnd INR].
  replace (10000 * 5 * 2 / 100) with 1000 by lra.
  replace (10000 + 1000) with 11000 by lra.
  replace (1000 / 10000 * 100) with 10 by lra.
  replace (10000 * 5 / 100) with 500 by lra.
  replace (10000 + 500 * 1) with 10500 by lra.
  replace (10000 + 500 * (1 + 1)) with 11000 by lra.
  rewrite (round2_eq 1000 100000) by lra.
  rewrite (round2_eq 11000 1100000) by lra.
  rewrite (round2_eq 10 1000) by lra.
  rewrite (round2_eq 10000 1000000) by lra.
  rewrite (round2_eq 500 50000) by lra.
  rewrite (round2_eq 10500 1050000) by lra.
  repeat f_equal; lra.
Qed.

(** C3 (as stated, refuted): for simple interest over two years the first
    entry closes at 10500 while the second opens at 10000. *)
Lemma C3_simple_chain_counterexample :
  exists res e1 e2,
    Interest.calculateInterest 10000 5 2 "simple" = Ok res
    /\ nth_error (Interest.yearWiseBreakdown res) 0 = Some e1
    /\ nth_error (Interest.yearWiseBreakdown res) 1 = Some e2
    /\ Interest.totalAtEnd e1 = 10500
    /\ Interest.principalAtStart e2 = 10000
    /\ Rabs (Interest.totalAtEnd e1 - Interest.principalAtStart e2) > 1.
Proof.
  do 3 eexists. split; [exact calculateInterest_10000_5_2_simple |].
  cbn [Interest.yearWiseBreakdown nth_error].
  split; [reflexivity | split; [reflexivity |]].
  cbn [Interest.totalAtEnd Interest.principalAtStart].
  split; [reflexivity | split; [reflexivity |]].
  rewrite Rabs_right; lra.
Qed.

Lemma Math_ceil_INR (n : nat) : Math_ceil (INR n) = INR n.
Proof.
  rewrite INR_IZR_INZ. apply Math_ceil_eq. lra.
Qed.

Lemma breakdown_whole_years (p rate : R) (n : nat) (ty : string) :
  (1 <= n)%nat ->
  Interest.generateYearWiseBreakdown p rate (INR n) ty =
    if String.eqb ty "simple" then
      map (simpleEntry p (p * rate / 100)) (seq 1 n)
    else
      map (compoundEntry p (Math_pow (1 + rate / 100) 1)) (seq 1 n).
Proof.
  intro Hn. rewrite breakdown_full_years.
  - now rewrite Int_part_INR, Nat2Z.id.
  - apply le_INR in Hn. simpl in Hn. exact Hn.
Qed.

Lemma round2_within_cent (a b : R) :
  a = b -> Rabs (round2 a - round2 b) <= 0.01.
Proof.
  intros ->. replace (round2 b - round2 b) with 0 by lra.
  rewrite Rabs_R0. lra.
Qed.

(** C3 (amended): for valid input whose timePeriod T is a whole number of
    years, the breakdown has the years 1 to T = ceil(T) in order and the
    totalAtEnd of its last entry equals the returned totalAmount within
    rounding tolerance (0.01); for compound interest the totalAtEnd of
    each year equals the principalAtStart of the next, while for simple
    interest every principalAtStart is the principal.  For 0 < T < 1 the
    breakdown is one entry, labelled T, whose totalAtEnd equals the
    returned totalAmount within rounding tolerance (0.01). *)
Theorem C3_breakdown_invariant :
  forall (p rate : R) (ty : string),
    0 < p -> 0 <= rate <= 100 -> ty = "simple" \/ ty = "compound" ->
    (forall n : nat,
        (1 <= n <= 100)%nat ->
        exists res,
          Interest.calculateInterest p rate (INR n) ty = Ok res
          /\ Math_ceil (INR n) = INR n
          /\ map Interest.year (Interest.yearWiseBreakdown res)
             = map INR (seq 1 n)
          /\ (exists e,
                nth_error (Interest.yearWiseBreakdown res) (n - 1) = Some e
                /\ Rabs (Interest.totalAtEnd e
                         - Interest.resultTotalAmount res) <= 0.01)
          /\ (ty = "compound" -> chained (Interest.yearWiseBreakdown res))
          /\ (ty = "simple" ->
              Forall (fun e => Interest.principalAtStart e = round2 p)
                (Interest.yearWiseBreakdown res)))
    /\ (forall time : R,
          0 < time < 1 ->
          exists res e,
            Interest.calculateInterest p rate time ty = Ok res
            /\ Interest.yearWiseBreakdown res = [e]
            /\ Interest.year e = time
            /\ Rabs (Interest.totalAtEnd e - Interest.resultTotalAmount res)
               <= 0.01).
Proof.
  intros p rate ty Hp Hr Hty. split.
  - intros n [Hn1 Hn2].
    assert (HT : 0 < INR n <= 100).
    { apply le_INR in Hn1, Hn2. simpl in Hn1.
      replace 100 with (INR 100) by (simpl; lra). lra. }
    unfold Interest.calculateInterest.
    rewrite Interest_validateInputs_ok by assumption. cbn [bind].
    eexists. split; [reflexivity |].
    split; [apply Math_ceil_INR |].
    cbn [Interest.yearWiseBreakdown Interest.resultTotalAmount].
    rewrite breakdown_whole_years by exact Hn1.
    destruct Hty as [-> | ->]; cbn [String.eqb Ascii.eqb Bool.eqb].
    + split; [now rewrite !map_map |]. split; [| split].
      * eexists. split.
        { rewrite map_map. apply nth_error_map_seq. lia. }
        cbn [Interest.roundEntry simpleEntry Interest.totalAtEnd].
        unfold Interest.calculateSimpleInterest. cbn [Interest.totalAmount].
        replace (1 + (n - 1))%nat with n by lia.
        apply round2_within_cent. lra.
      * intro H. discriminate H.
      * intros _. rewrite map_map. apply Forall_forall.
        intros e He. apply in_map_iff in He. destruct He as [k [<- _]].
        reflexivity.
    + split; [now rewrite !map_map |]. split; [| split].
      * eexists. split.
        { rewrite map_map. apply nth_error_map_seq. lia. }
        cbn [Interest.roundEntry compoundEntry Interest.totalAtEnd].
        unfold Interest.calculateCompoundInterest.
        cbn [Interest.totalAmount].
        rewrite Math_pow_INR, Math_pow_1 by lra.
        replace (1 + (n - 1) - 1)%nat with (n - 1)%nat by lia.
        apply round2_within_cent.
        replace n with (S (n - 1)) at 3 by lia. simpl. lra.
      * intros _. apply compound_entries_chained. lia.
      * intro H. discriminate H.
  - intros time Ht.
    unfold Interest.calculateInterest.
    rewrite Interest_validateInputs_ok by (try assumption; lra).
    cbn [bind]. rewrite breakdown_below_one_year by exact Ht.
    destruct Hty as [-> | ->]; cbn [String.eqb Ascii.eqb Bool.eqb].
    + do 2 eexists. split; [reflexivity |].
      cbn [Interest.yearWiseBreakdown map]. split; [reflexivity |].
      cbn [Interest.roundEntry Interest.year Interest.totalAtEnd
             Interest.resultTotalAmount].
      split; [reflexivity |].
      unfold Interest.calculateSimpleInterest. cbn [Interest.totalAmount].
      apply round2_within_cent. lra.
    + do 2 eexists. split; [reflexivity |].
      cbn [Interest.yearWiseBreakdown map]. split; [reflexivity |].
      cbn [Interest.roundEntry Interest.year Interest.totalAtEnd
             Interest.resultTotalAmount].
      split; [reflexivity |].
      unfold Interest.calculateCompoundInterest. cbn [Interest.totalAmount].
      apply round2_within_cent. replace (time - 0) with time by lra. lra.
Qed.

Lemma C3_breakdown_invariant_witness :
  exists res,
    Interest.calculateInterest 10000 5 (INR 2) "compound" = Ok res
    /\ chained (Interest.yearWiseBreakdown res).
Proof.
  assert (Hp : 0 < 10000) by lra.
  assert (Hr : 0 <= 5 <= 100) by lra.
  assert (Hty : "compound" = "simple" \/ "compound" = "compound")
    by (right; reflexivity).
  assert (Hn : (1 <= 2 <= 100)%nat) by lia.
  destruct (proj1 (C3_breakdown_invariant 10000 5 "compound" Hp Hr Hty)
              2%nat Hn)
    as [res [Hres [_ [_ [_ [Hchain _]]]]]].
  exists res. split; [exact Hres | exact (Hchain eq_refl)].
Defined.

(** *** A twenty-year loan paid with the rounded instalment

    300000 at 10% over 240 months: the instalment 2895.0649... is
    reported as 2895.06, and a schedule fed with the reported value
    closes with 3.75 still owed; the principal components then fall short
    of the loan by more than 240 x 0.01. *)

Lemma square_bounds (l u l' u' y : R) :
  0 < l -> l <= y <= u -> l' <= l * l -> u * u <= u' -> l' <= y * y <= u'.
Proof. intros Hl Hy Hl' Hu'. split; nra. Qed.

Lemma pow_121_120_15 :
  (1 + 10 / (12 * 100)) ^ 15 =
    17449402268886407318558803753801 / 15407021574586368000000000000000.
Proof. simpl. lra. Qed.

(** (121/120)^240 by four squarings of the fifteenth power. *)
Lemma pow_121_120_240_bounds :
  7.32807363 < (1 + 10 / (12 * 100)) ^ 240 < 7.32807364.
Proof.
  pose proof pow_121_120_15 as H15.
  set (x := 1 + 10 / (12 * 100)) in *.
  assert (H30 : 1.28269596349976 <= x ^ 30 <= 1.28269596349977).
  { replace (x ^ 30) with (x ^ 15 * x ^ 15)
      by (rewrite <- pow_add; reflexivity).
    rewrite H15. lra. }
  assert (H60 : 1.64530893477857 <= x ^ 60 <= 1.64530893477861).
  { replace (x ^ 60) with (x ^ 30 * x ^ 30)
      by (rewrite <- pow_add; reflexivity).
    apply (square_bounds 1.28269596349976 1.28269596349977); lra. }
  assert (H120 : 2.70704149086219 <= x ^ 120 <= 2.70704149086233).
  { replace (x ^ 120) with (x ^ 60 * x ^ 60)
      by (rewrite <- pow_add; reflexivity).
    apply (square_bounds 1.64530893477857 1.64530893477861); lra. }
  assert (H240 : 7.32807363324938 <= x ^ 240 <= 7.32807363325015).
  { replace (x ^ 240) with (x ^ 120 * x ^ 120)
      by (rewrite <- pow_add; reflexivity).
    apply (square_bounds 2.70704149086219 2.70704149086233); lra. }
  lra.
Qed.

Lemma div_bounds (a b lo hi : R) :
  0 < b -> lo * b <= a < hi * b -> lo <= a / b < hi.
Proof.
  intros Hb [H1 H2]. split.
  - apply Rmult_le_reg_r with b; [exact Hb |].
    replace (a / b * b) with a by (field; lra). exact H1.
  - apply Rmult_lt_reg_r with b; [exact Hb |].
    replace (a / b * b) with a by (field; lra). exact H2.
Qed.

Lemma INR_240 : INR 240 = 240.
Proof. rewrite INR_IZR_INZ. reflexivity. Qed.

Lemma unroundedEMI_300000_10_240 :
  2895.0649 < EMI.unroundedEMI 300000 10 240 < 2895.065.
Proof.
  rewrite <- INR_240. unfold EMI.unroundedEMI.
  rewrite eqb_false by lra. rewrite Math_pow_INR by lra.
  pose proof pow_121_120_240_bounds as Hq.
  set (q := (1 + 10 / (12 * 100)) ^ 240) in *.
  assert (H : 2895.0649 <= 300000 * (10 / (12 * 100)) * q / (q - 1)
              < 2895.065) by (apply div_bounds; lra).
  assert (Hne : 300000 * (10 / (12 * 100)) * q / (q - 1) <> 2895.0649).
  { intro E. apply (f_equal (fun v => v * (q - 1))) in E.
    replace (300000 * (10 / (12 * 100)) * q / (q - 1) * (q - 1))
      with (300000 * (10 / (12 * 100)) * q) in E by (field; lra).
    lra. }
  lra.
Qed.

Lemma remainingBalance_300000_10_240 :
  3.747 < remainingBalance (10 / (12 * 100)) 2895.06 300000 240 < 3.748.
Proof.
  rewrite remainingBalance_closed.
  pose proof (geometric_closed (1 + 10 / (12 * 100)) 240) as G.
  pose proof pow_121_120_240_bounds as Hq.
  set (q := (1 + 10 / (12 * 100)) ^ 240) in *.
  set (g := geometric (1 + 10 / (12 * 100)) 240) in *.
  assert (Hg : g = 120 * (q - 1)) by lra.
  rewrite Hg. lra.
Qed.

(** With the instalment calculateEMI reports, the schedule of this loan
    ends with a balance of 3.75 and its principal components miss the
    loan amount by more than 240 x 0.01. *)
Lemma schedule_300000_10_240 :
  exists res e,
    EMI.calculateEMI 300000 10 240 = Ok res
    /\ EMI.monthlyEMI res = 2895.06
    /\ nth_error
         (EMI.generateAmortizationSchedule 300000 10 240 (EMI.monthlyEMI res))
         239 = Some e
    /\ EMI.balance e = 3.75
    /\ Rsum (map EMI.principal
               (EMI.generateAmortizationSchedule 300000 10 240
                  (EMI.monthlyEMI res)))
       < 300000 - 240 * 0.01.
Proof.
  pose proof unroundedEMI_300000_10_240 as He.
  pose proof remainingBalance_300000_10_240 as Hb.
  unfold EMI.calculateEMI.
  replace (EMI.validateInputs 300000 10 240) with (Ok tt).
  2:{ symmetry. rewrite <- INR_240.
      apply EMI_validateInputs_ok; [lra | lra | lia]. }
  cbn [bind]. do 2 eexists. split; [reflexivity |].
  cbn [EMI.monthlyEMI].
  rewrite (round2_eq (EMI.unroundedEMI 300000 10 240) 289506) by lra.
  replace (289506 / 100) with 2895.06 by lra.
  split; [reflexivity |].
  unfold EMI.generateAmortizationSchedule.
  assert (Hrange : for_range 1 240 = seq 1 240)
    by (rewrite <- INR_240; apply for_range_INR).
  rewrite !Hrange.
  split; [apply scheduleLoop_nth; lia |].
  cbn [EMI.balance]. split.
  - rewrite (round2_eq _ 375) by lra.
    rewrite Math_max_0_nonneg by lra. lra.
  - pose proof (scheduleLoop_principal_sum (10 / (12 * 100)) 2895.06
                  (seq 1 240) 300000) as Hs.
    rewrite length_seq, INR_240 in Hs. apply Rabs_le_iff in Hs. lra.
Qed.

(** * Further properties of the calculators *)

(** ** Rounding *)

Lemma Int_part_le (x y : R) : x <= y -> (Int_part x <= Int_part y)%Z.
Proof.
  intro H. destruct (base_Int_part x) as [Hx _].
  destruct (base_Int_part y) as [_ Hy].
  assert (Hz : (Int_part x < Int_part y + 1)%Z).
  { apply lt_IZR. rewrite plus_IZR. lra. }
  lia.
Qed.

Lemma round2_le (x y : R) : x <= y -> round2 x <= round2 y.
Proof.
  intro H. unfold round2, Math_round.
  assert (Hz : (Int_part (x * 100 + / 2) <= Int_part (y * 100 + / 2))%Z)
    by (apply Int_part_le; lra).
  apply IZR_le in Hz. lra.
Qed.

Lemma round2_nonneg (x : R) : 0 <= x -> 0 <= round2 x.
Proof. intro H. rewrite <- round2_0. now apply round2_le. Qed.

(** ** Acceptance and interest of calculateEMI *)

Lemma EMI_validateInputs_inv (P Rate N : R) :
  EMI.validateInputs P Rate N = Ok tt ->
  0 < P /\ 0 <= Rate <= 100 /\ 0 < N /\ Math_floor N = N.
Proof.
  unfold EMI.validateInputs, Number_isInteger.
  js_split; intro H; try discriminate H; repeat split; try lra; assumption.
Qed.

Lemma positive_integer_INR (N : R) :
  0 < N -> Math_floor N = N -> exists n : nat, (0 < n)%nat /\ N = INR n.
Proof.
  intros HN Hint. exists (Z.to_nat (Int_part N)).
  rewrite <- Math_floor_INR by lra. split; [| now symmetry].
  apply INR_lt. rewrite <- Math_floor_INR by lra. simpl. lra.
Qed.

(** X1: for numeric arguments (finite numbers; a missing or non-numeric
    argument is outside this statement), calculateEMI returns a result
    exactly when the loan amount is positive, the rate lies in [0, 100]
    and the tenure is a positive whole number; otherwise it throws the
    message of the first violated constraint, checked in the order loan
    amount, rate, tenure: a tenure that is zero, negative or fractional
    is refused with the tenure message. *)
Theorem X1_calculateEMI_accepts_iff :
  forall P Rate N : R,
    ((exists res, EMI.calculateEMI P Rate N = Ok res)
     <-> 0 < P /\ 0 <= Rate <= 100 /\ 0 < N /\ Math_floor N = N)
    /\ (P <= 0 ->
        EMI.calculateEMI P Rate N =
          Throw "Loan amount must be greater than 0")
    /\ (0 < P -> Rate < 0 \/ 100 < Rate ->
        EMI.calculateEMI P Rate N =
          Throw "Interest rate must be between 0 and 100")
    /\ (0 < P -> 0 <= Rate <= 100 -> N <= 0 \/ Math_floor N <> N ->
        EMI.calculateEMI P Rate N =
          Throw "Loan tenure must be a positive integer (in months)").
Proof.
  intros P Rate N. split; [split | split; [| split]].
  - intros [res H]. apply bind_ok_inv in H. destruct H as [[] [Hv _]].
    now apply EMI_validateInputs_inv.
  - intros [HP [HR [HN Hint]]].
    destruct (positive_integer_INR N HN Hint) as [n [Hn ->]].
    unfold EMI.calculateEMI. rewrite EMI_validateInputs_ok by assumption.
    cbn [bind]. eexists. reflexivity.
  - intro HP. unfold EMI.calculateEMI. apply bind_throw.
    unfold EMI.validateInputs. rewrite (leb_true P 0 HP).
    rewrite orb_true_r. reflexivity.
  - intros HP HR. unfold EMI.calculateEMI. apply bind_throw.
    unfold EMI.validateInputs. js_compare. cbn [orb].
    destruct HR as [HR | HR].
    + rewrite (ltb_true Rate 0 HR). reflexivity.
    + rewrite (ltb_true 100 Rate HR). rewrite orb_true_r. reflexivity.
  - intros HP HR HN. unfold EMI.calculateEMI. apply bind_throw.
    unfold EMI.validateInputs, Number_isInteger. js_compare.
    destruct HN as [HN | HN].
    + unfold falsy, leb, eqb.
      destruct (Req_dec_T N 0); [reflexivity |].
      destruct (Rle_dec N 0); [reflexivity | contradiction].
    + rewrite (eqb_false _ _ HN). cbn [negb]. rewrite !orb_true_r.
      reflexivity.
Qed.

Lemma X1_calculateEMI_accepts_iff_witness :
  EMI.calculateEMI 100000 10 0 =
    Throw "Loan tenure must be a positive integer (in months)".
Proof.
  apply (proj2 (proj2 (proj2 (X1_calculateEMI_accepts_iff 100000 10 0))));
    [lra | lra |].
  left. lra.
Defined.

Lemma geometric_le (q : R) (k : nat) :
  1 <= q -> geometric q k <= INR k * q ^ k.
Proof.
  intro Hq. induction k as [| k IH].
  - simpl. lra.
  - cbn [geometric]. rewrite S_INR.
    assert (Hp : 0 < q ^ k) by (apply pow_lt; lra).
    assert (Hk : 0 <= INR k) by apply pos_INR.
    assert (Hm : 0 <= (INR k + 1) * q ^ k) by nra.
    simpl. nra.
Qed.

(** The instalments of a loan add up to at least the amount lent. *)
Lemma unroundedEMI_covers_loan (P Rate : R) (n : nat) :
  0 < P -> 0 <= Rate -> (0 < n)%nat ->
  P <= EMI.unroundedEMI P Rate (INR n) * INR n.
Proof.
  intros HP HR Hn. rewrite unroundedEMI_formula by exact HR.
  assert (Hn' : 0 < INR n) by (apply lt_INR in Hn; simpl in Hn; exact Hn).
  destruct (Req_dec_T (Rate / 1200) 0) as [E | E].
  - replace (P / INR n * INR n) with P by (field; lra). lra.
  - set (r := Rate / 1200) in *.
    assert (Hr : 0 < r) by (unfold r in *; lra).
    assert (Hq : 1 < (1 + r) ^ n) by (apply pow_gt_1; assumption).
    pose proof (geometric_closed (1 + r) n) as G.
    pose proof (geometric_le (1 + r) n ltac:(lra)) as Gle.
    set (q := (1 + r) ^ n) in *. set (g := geometric (1 + r) n) in *.
    replace (1 + r - 1) with r in G by lra.
    assert (Hkey : q - 1 <= INR n * r * q) by nra.
    apply Rmult_le_reg_r with (q - 1); [lra |].
    replace (P * r * q / (q - 1) * INR n * (q - 1))
      with (P * (INR n * r * q)) by (field; lra).
    nra.
Qed.

(** X2: for a positive loan amount, a rate from 1 to 100 and a whole
    tenure of 1 to 1200 months, calculateEMI reports no negative interest:
    the total interest is at least 0 and the total payable is at least
    the rounded loan amount. *)
Theorem X2_calculateEMI_interest_nonneg :
  forall (P Rate : R) (n : nat),
    0 < P -> 1 <= Rate <= 100 -> (1 <= n <= 1200)%nat ->
    exists res,
      EMI.calculateEMI P Rate (INR n) = Ok res
      /\ 0 <= EMI.totalInterest res
      /\ round2 P <= EMI.totalPayable res.
Proof.
  intros P Rate n HP HR [Hn _].
  unfold EMI.calculateEMI.
  rewrite EMI_validateInputs_ok by (try assumption; try lra; lia).
  cbn [bind]. eexists. split; [reflexivity |].
  cbn [EMI.totalInterest EMI.totalPayable].
  assert (Hc : P <= EMI.unroundedEMI P Rate (INR n) * INR n)
    by (apply unroundedEMI_covers_loan; [exact HP | lra | lia]).
  split; [apply round2_nonneg; lra | apply round2_le; exact Hc].
Qed.

Lemma X2_calculateEMI_interest_nonneg_witness :
  exists res,
    EMI.calculateEMI 100000 10 (INR 12) = Ok res
    /\ 0 <= EMI.totalInterest res
    /\ round2 100000 <= EMI.totalPayable res.
Proof.
  apply (X2_calculateEMI_interest_nonneg 100000 10 12); [lra | lra | lia].
Defined.

(** ** Shape of the amortization schedule *)

Lemma scheduleLoop_components (r emi : R) (months : list nat) (b : R) :
  Forall (fun e => Rabs (EMI.principal e + EMI.interest e - emi) <= 0.01)
    (EMI.scheduleLoop r emi months b).
Proof.
  revert b. induction months as [| m rest IH]; intro b; simpl.
  - constructor.
  - constructor; [| apply IH].
    cbn [EMI.principal EMI.interest].
    pose proof (round2_close (emi - b * r)) as H1.
    pose proof (round2_close (b * r)) as H2.
    apply Rabs_le_iff. lra.
Qed.

Lemma scheduleLoop_payments_sum (r emi : R) (months : list nat) (b : R) :
  Rabs (Rsum (map EMI.principal (EMI.scheduleLoop r emi months b))
        + Rsum (map EMI.interest (EMI.scheduleLoop r emi months b))
        - emi * INR (List.length months))
    <= INR (List.length months) * 0.01.
Proof.
  revert b. induction months as [| m rest IH]; intro b.
  - simpl. replace (0 + 0 - emi * 0) with 0 by lra. rewrite Rabs_R0. lra.
  - cbn [EMI.scheduleLoop map Rsum fold_right List.length EMI.principal
           EMI.interest].
    fold (Rsum (map EMI.principal
                  (EMI.scheduleLoop r emi rest (b - (emi - b * r))))).
    fold (Rsum (map EMI.interest
                  (EMI.scheduleLoop r emi rest (b - (emi - b * r))))).
    specialize (IH (b - (emi - b * r))).
    pose proof (round2_close (emi - b * r)) as H1.
    pose proof (round2_close (b * r)) as H2.
    rewrite S_INR. apply Rabs_le_iff. apply Rabs_le_iff in IH. lra.
Qed.

(** X3: in every entry of an amortization schedule the reported principal
    and interest add up to the monthly EMI within one cent, so all
    reported components together are within (number of entries) x 0.01 of
    EMI x (number of entries); this holds for any arguments. *)
Theorem X3_schedule_components_make_emi :
  forall P Rate N emi : R,
    let schedule := EMI.generateAmortizationSchedule P Rate N emi in
    Forall (fun e => Rabs (EMI.principal e + EMI.interest e - emi) <= 0.01)
      schedule
    /\ Rabs (Rsum (map EMI.principal schedule)
             + Rsum (map EMI.interest schedule)
             - emi * INR (List.length schedule))
       <= INR (List.length schedule) * 0.01.
Proof.
  intros P Rate N emi schedule. unfold schedule,
    EMI.generateAmortizationSchedule.
  split; [apply scheduleLoop_components |].
  rewrite scheduleLoop_length. apply scheduleLoop_payments_sum.
Qed.

Lemma Math_max_0_le (x y : R) : x <= y -> Math_max 0 x <= Math_max 0 y.
Proof.
  intro H. unfold Math_max.
  destruct (Rle_dec 0 x), (Rle_dec 0 y); lra.
Qed.

(** While the instalment covers the interest on the opening balance, the
    balance falls, the interest share falls and the principal share
    rises from month to month. *)
Lemma scheduleLoop_monotone (r emi P0 : R) (months : list nat) (b : R) :
  0 <= r -> P0 * r <= emi -> b <= P0 ->
  let entries := EMI.scheduleLoop r emi months b in
  Sorted Rge (Math_max 0 (round2 b) :: map EMI.balance entries)
  /\ Sorted Rge (map EMI.interest entries)
  /\ Sorted Rle (map EMI.principal entries).
Proof.
  intros Hr Hemi. revert b.
  induction months as [| m rest IH]; intros b Hb entries.
  - subst entries. cbn. repeat split; repeat constructor.
  - subst entries. cbn [EMI.scheduleLoop map EMI.balance EMI.interest
                          EMI.principal].
    set (b' := b - (emi - b * r)).
    assert (Hstep : b' <= b) by (unfold b'; nra).
    destruct (IH b' ltac:(lra)) as [Hbal [Hint Hpri]].
    split; [| split].
    + constructor; [exact Hbal |]. constructor.
      apply Rle_ge, Math_max_0_le, round2_le. exact Hstep.
    + constructor; [exact Hint |].
      destruct rest as [| m' rest']; [constructor |].
      cbn [EMI.scheduleLoop map EMI.interest]. constructor.
      apply Rle_ge, round2_le. nra.
    + constructor; [exact Hpri |].
      destruct rest as [| m' rest']; [constructor |].
      cbn [EMI.scheduleLoop map EMI.principal]. constructor.
      apply round2_le. nra.
Qed.

(** X4: when the rate is not negative and the monthly EMI is at least the
    first month's interest P x r, the reported balances never rise from
    one month to the next (and start at most at the rounded loan amount),
    the reported interest components never rise and the reported
    principal components never fall. *)
Theorem X4_schedule_monotone :
  forall P Rate N emi : R,
    0 <= Rate -> P * (Rate / (12 * 100)) <= emi ->
    let schedule := EMI.generateAmortizationSchedule P Rate N emi in
    Sorted Rge (Math_max 0 (round2 P) :: map EMI.balance schedule)
    /\ Sorted Rge (map EMI.interest schedule)
    /\ Sorted Rle (map EMI.principal schedule).
Proof.
  intros P Rate N emi HR Hemi schedule.
  unfold schedule, EMI.generateAmortizationSchedule.
  apply (scheduleLoop_monotone _ emi P); [lra | exact Hemi | lra].
Qed.

Lemma X4_schedule_monotone_witness :
  Sorted Rge
    (map EMI.interest (EMI.generateAmortizationSchedule 100000 10 12 8791.59)).
Proof.
  apply (X4_schedule_monotone 100000 10 12 8791.59); lra.
Defined.

(** ** The EMI formula and its inverse, the other way round *)

(** X5: for R > 0 and N > 0, the instalment computed by the EMI formula
    for the loan amount that calculateLoanAmountFromEMI derives from an
    EMI capacity M is M again. *)
Theorem X5_emi_of_eligible_loan :
  forall M Rate N : R,
    0 < Rate -> 0 < N ->
    EMI.unroundedEMI (Loan.calculateLoanAmountFromEMI M Rate N) Rate N = M.
Proof.
  intros M Rate N HR HN.
  unfold Loan.calculateLoanAmountFromEMI, EMI.unroundedEMI.
  replace (Rate / (12 * 100)) with (Rate / 12 / 100) by (field; lra).
  set (r := Rate / 12 / 100).
  assert (Hr : 0 < r) by (unfold r; lra).
  rewrite eqb_false by lra. rewrite Math_pow_pos by lra.
  assert (Hf : 1 < Rpower (1 + r) N) by (apply Rpower_gt_1; lra).
  set (f := Rpower (1 + r) N) in *.
  field. repeat split; lra.
Qed.

Lemma X5_emi_of_eligible_loan_witness :
  EMI.unroundedEMI (Loan.calculateLoanAmountFromEMI 20000 9 240) 9 240
  = 20000.
Proof.
  apply X5_emi_of_eligible_loan; lra.
Defined.

(** ** The route handlers against the controllers *)

(** X6: for a request body whose three fields are numbers (finite; a
    missing or non-numeric field is outside this statement), the EMI
    route answers like calculateEMI whenever the rate is not 0: status
    200 with the controller's result, or status 400 with the controller's
    message.  A rate of exactly 0, which calculateEMI accepts, is refused
    by the route with the rate message. *)
Theorem X6_emi_route_matches_controller :
  forall P Rate N : R,
    (Rate <> 0 ->
     Routes.emiCalculatorRoute P Rate N =
       match EMI.calculateEMI P Rate N with
       | Ok res => Routes.sendData res
       | Throw message => Routes.badRequest message
       end)
    /\ (0 < P ->
        Routes.emiCalculatorRoute P 0 N =
          Routes.badRequest "Interest rate must be between 0 and 100").
Proof.
  intros P Rate N. split.
  - intro HR. unfold Routes.emiCalculatorRoute, EMI.calculateEMI,
      EMI.validateInputs, EMI.unroundedEMI.
    rewrite (falsy_false Rate HR). cbn [orb].
    destruct (falsy P || leb P 0); [reflexivity |].
    destruct (ltb Rate 0 || ltb 100 Rate); [reflexivity |].
    destruct (falsy N || leb N 0 || negb (Number_isInteger N));
      reflexivity.
  - intro HP. unfold Routes.emiCalculatorRoute. js_compare. reflexivity.
Qed.

Lemma X6_emi_route_matches_controller_witness :
  Routes.emiCalculatorRoute 100000 0 12 =
    Routes.badRequest "Interest rate must be between 0 and 100".
Proof.
  apply (proj2 (X6_emi_route_matches_controller 100000 0 12)). lra.
Defined.

(** X7: the FD route answers exactly like calculateFD: status 200 with
    the controller's result when it returns, status 400 with the
    controller's message when it throws. *)
Theorem X7_fd_route_matches_controller :
  forall P Rate t : R,
    Routes.fdCalculatorRoute P Rate t =
      match FD.calculateFD P Rate t with
      | Ok res => Routes.sendData res
      | Throw message => Routes.badRequest message
      end.
Proof.
  intros P Rate t.
  unfold Routes.fdCalculatorRoute, FD.calculateFD, FD.validateInputs,
    FD.calculateMaturityAmount, FD.calculateEffectiveRate,
    FD.COMPOUNDING_FREQUENCY.
  destruct (falsy P || ltb P 1000); [reflexivity |].
  destruct (falsy Rate || ltb Rate 1 || ltb 15 Rate); [reflexivity |].
  destruct (falsy t || leb t 0 || ltb 10 t); reflexivity.
Qed.

(** ** Bernoulli's inequality for real exponents *)

Lemma exp_le (x y : R) : x <= y -> exp x <= exp y.
Proof.
  intros [H | ->]; [left; now apply exp_increasing | right; reflexivity].
Qed.

Lemma ln_le_pred (u : R) : 0 < u -> ln u <= u - 1.
Proof.
  intro Hu. pose proof (exp_ineq1_le (ln u)) as H.
  rewrite exp_ln in H by exact Hu. lra.
Qed.

Lemma ln_lower (r : R) : 0 <= r -> r / (1 + r) <= ln (1 + r).
Proof.
  intro Hr. pose proof (ln_le_pred (/ (1 + r))) as H.
  rewrite ln_Rinv in H by lra.
  assert (Hpos : 0 < / (1 + r)) by (apply Rinv_0_lt_compat; lra).
  specialize (H Hpos).
  replace (r / (1 + r)) with (1 - / (1 + r)) by (field; lra). lra.
Qed.

Lemma Rpower_lower (r t : R) :
  0 <= r -> 0 <= t -> 1 + t * (r / (1 + r)) <= Rpower (1 + r) t.
Proof.
  intros Hr Ht. unfold Rpower.
  pose proof (exp_ineq1_le (t * ln (1 + r))) as H.
  pose proof (ln_lower r Hr) as Hl. nra.
Qed.

Lemma Rpower_bernoulli (r x : R) :
  0 <= r -> 1 <= x -> 1 + x * r <= Rpower (1 + r) x.
Proof.
  intros Hr Hx. replace x with (1 + (x - 1)) at 2 by lra.
  rewrite Rpower_plus, Rpower_1 by lra.
  pose proof (Rpower_lower r (x - 1) Hr ltac:(lra)) as H.
  replace (1 + x * r) with ((1 + r) * (1 + (x - 1) * (r / (1 + r))))
    by (field; lra).
  apply Rmult_le_compat_l; lra.
Qed.

Lemma Rpower_bernoulli_below (r x : R) :
  0 <= r -> 0 <= x <= 1 -> Rpower (1 + r) x <= 1 + x * r.
Proof.
  intros Hr Hx. set (a := 1 + x * r).
  assert (Ha : 0 < a) by (unfold a; nra).
  rewrite <- (exp_ln a) by exact Ha. unfold Rpower. apply exp_le.
  assert (H1 : ln ((1 + r) / a) <= (1 + r) / a - 1).
  { apply ln_le_pred. apply Rdiv_lt_0_compat; lra. }
  assert (H2 : ln (/ a) <= / a - 1).
  { apply ln_le_pred. apply Rinv_0_lt_compat; lra. }
  unfold Rdiv in H1 at 1. rewrite ln_mult in H1;
    [| lra | apply Rinv_0_lt_compat; lra].
  rewrite ln_Rinv in H1, H2 by exact Ha.
  assert (Hid : x * ((1 + r) / a - 1) + (1 - x) * (/ a - 1) = 0).
  { unfold a. field. fold a. lra. }
  nra.
Qed.

(** ** Acceptance and results of calculateInterest *)

Lemma Interest_validateInputs_inv (p rate time : R) (ty : string) :
  Interest.validateInputs p rate time ty = Ok tt ->
  0 < p /\ 0 <= rate <= 100 /\ 0 < time <= 100
  /\ (ty = "simple" \/ ty = "compound").
Proof.
  unfold Interest.validateInputs.
  js_split; intro H; try discriminate H.
  cbn [existsb] in H.
  destruct (String.eqb ty "simple") eqn:Es.
  - apply String.eqb_eq in Es. repeat split; try lra. now left.
  - destruct (String.eqb ty "compound") eqn:Ec.
    + apply String.eqb_eq in Ec. repeat split; try lra. now right.
    + cbn in H. rewrite orb_true_r in H. discriminate H.
Qed.

(** X8: for numeric principal, rate and period (finite numbers; a
    missing or non-numeric argument is outside this statement) and a
    string type, calculateInterest returns a result exactly when the
    principal is positive, the rate lies in [0, 100], the period is
    positive and at most 100 years, and the type is 'simple' or
    'compound'; any positive period is accepted, also one below the 0.1
    years that the error message names. *)
Theorem X8_calculateInterest_accepts_iff :
  forall (p rate time : R) (ty : string),
    (exists res, Interest.calculateInterest p rate time ty = Ok res)
    <-> 0 < p /\ 0 <= rate <= 100 /\ 0 < time <= 100
        /\ (ty = "simple" \/ ty = "compound").
Proof.
  intros p rate time ty. split.
  - intros [res H]. apply bind_ok_inv in H. destruct H as [[] [Hv _]].
    now apply Interest_validateInputs_inv.
  - intros [Hp [Hr [Ht Hty]]]. unfold Interest.calculateInterest.
    rewrite Interest_validateInputs_ok by assumption. cbn [bind].
    eexists. reflexivity.
Qed.

(** X9: for the same valid principal, rate and period, the interest
    amount and the total amount that calculateInterest reports for
    compound interest are, up to the cent of rounding (0.01), at least
    those it reports for simple interest when the period is one year or
    more, and at most those when the period is one year or less. *)
Theorem X9_compound_against_simple :
  forall p rate time : R,
    0 < p -> 0 <= rate <= 100 -> 0 < time <= 100 ->
    exists rs rc,
      Interest.calculateInterest p rate time "simple" = Ok rs
      /\ Interest.calculateInterest p rate time "compound" = Ok rc
      /\ (1 <= time ->
          Interest.interestAmount rs - 0.01 <= Interest.interestAmount rc
          /\ Interest.resultTotalAmount rs - 0.01
             <= Interest.resultTotalAmount rc)
      /\ (time <= 1 ->
          Interest.interestAmount rc - 0.01 <= Interest.interestAmount rs
          /\ Interest.resultTotalAmount rc - 0.01
             <= Interest.resultTotalAmount rs).
Proof.
  intros p rate time Hp Hr Ht.
  unfold Interest.calculateInterest.
  rewrite !Interest_validateInputs_ok by (try assumption; auto).
  cbn [bind String.eqb Ascii.eqb Bool.eqb].
  do 2 eexists. split; [reflexivity | split; [reflexivity |]].
  cbn [Interest.interestAmount Interest.resultTotalAmount].
  unfold Interest.calculateSimpleInterest, Interest.calculateCompoundInterest.
  cbn [Interest.interest Interest.totalAmount].
  rewrite Math_pow_pos by lra.
  set (x := rate / 100). assert (Hx : 0 <= x) by (unfold x; lra).
  replace (p * rate * time / 100) with (p * (time * x))
    by (unfold x; field).
  assert (Hle : forall a b : R, a <= b -> round2 a - 0.01 <= round2 b).
  { intros a b Hab. pose proof (round2_le a b Hab). lra. }
  split.
  - intro H1. pose proof (Rpower_bernoulli x time Hx H1) as B.
    split; apply Hle; nra.
  - intro H1. pose proof (Rpower_bernoulli_below x time Hx ltac:(lra)) as B.
    split; apply Hle; nra.
Qed.

Lemma X9_compound_against_simple_witness :
  exists rs rc,
    Interest.calculateInterest 10000 5 2 "simple" = Ok rs
    /\ Interest.calculateInterest 10000 5 2 "compound" = Ok rc
    /\ (1 <= 2 ->
        Interest.interestAmount rs - 0.01 <= Interest.interestAmount rc
        /\ Interest.resultTotalAmount rs - 0.01
           <= Interest.resultTotalAmount rc)
    /\ (2 <= 1 ->
        Interest.interestAmount rc - 0.01 <= Interest.interestAmount rs
        /\ Interest.resultTotalAmount rc - 0.01
           <= Interest.resultTotalAmount rs).
Proof.
  apply (X9_compound_against_simple 10000 5 2); lra.
Defined.

(** X10: whatever the (valid) principal, the growth rate that
    calculateInterest reports is within 0.01 of rate x period for simple
    interest and within 0.01 of ((1 + rate/100)^period - 1) x 100 for
    compound interest. *)
Theorem X10_growth_rate_independent_of_principal :
  forall p rate time : R,
    0 < p -> 0 <= rate <= 100 -> 0 < time <= 100 ->
    exists rs rc,
      Interest.calculateInterest p rate time "simple" = Ok rs
      /\ Interest.calculateInterest p rate time "compound" = Ok rc
      /\ Rabs (Interest.growthRate rs - rate * time) <= 0.01
      /\ Rabs (Interest.growthRate rc
               - (Rpower (1 + rate / 100) time - 1) * 100) <= 0.01.
Proof.
  intros p rate time Hp Hr Ht.
  unfold Interest.calculateInterest.
  rewrite !Interest_validateInputs_ok by (try assumption; auto).
  cbn [bind String.eqb Ascii.eqb Bool.eqb].
  do 2 eexists. split; [reflexivity | split; [reflexivity |]].
  cbn [Interest.growthRate].
  unfold Interest.calculateSimpleInterest, Interest.calculateCompoundInterest.
  cbn [Interest.interest]. rewrite Math_pow_pos by lra.
  split.
  - replace (p * rate * time / 100 / p * 100) with (rate * time)
      by (field; lra).
    pose proof (round2_close (rate * time)) as H.
    apply Rabs_le_iff. lra.
  - set (q := Rpower (1 + rate / 100) time).
    replace ((p * q - p) / p * 100) with ((q - 1) * 100) by (field; lra).
    pose proof (round2_close ((q - 1) * 100)) as H.
    apply Rabs_le_iff. lra.
Qed.

Lemma X10_growth_rate_independent_of_principal_witness :
  exists rs rc,
    Interest.calculateInterest 10000 5 2 "simple" = Ok rs
    /\ Interest.calculateInterest 10000 5 2 "compound" = Ok rc
    /\ Rabs (Interest.growthRate rs - 5 * 2) <= 0.01
    /\ Rabs (Interest.growthRate rc - (Rpower (1 + 5 / 100) 2 - 1) * 100)
       <= 0.01.
Proof.
  apply (X10_growth_rate_independent_of_principal 10000 5 2); lra.
Defined.

Lemma X8_calculateInterest_accepts_iff_witness :
  exists res, Interest.calculateInterest 10000 5 0.05 "simple" = Ok res.
Proof.
  apply (proj2 (X8_calculateInterest_accepts_iff 10000 5 0.05 "simple")).
  repeat split; try lra. now left.
Defined.

(** ** SIP: returns and year-wise growth *)

Lemma SIP_validateInputs_ok (mi ip roi : R) :
  500 <= mi -> 1 <= ip <= 50 -> 1 <= roi <= 20 ->
  SIP.validateInputs mi ip roi = Ok tt.
Proof.
  intros. unfold SIP.validateInputs. js_compare. reflexivity.
Qed.

(** Paying [months] instalments at the start of each month at a positive
    rate is worth at least the instalments. *)
Lemma SIP_future_value_ge_invested (M roi months : R) :
  0 <= M -> 0 < roi -> 0 <= months ->
  M * months <= SIP.calculateFutureValueOfAnnuity M roi months.
Proof.
  intros HM Hroi Hm. unfold SIP.calculateFutureValueOfAnnuity.
  set (r := roi / 12 / 100). assert (Hr : 0 < r) by (unfold r; lra).
  rewrite eqb_false by lra. rewrite Math_pow_pos by lra.
  pose proof (Rpower_lower r months ltac:(lra) Hm) as B.
  set (q := Rpower (1 + r) months) in *.
  assert (Hk : months <= (q - 1) / r * (1 + r)).
  { apply Rmult_le_reg_r with (r / (1 + r)).
    - apply Rdiv_lt_0_compat; lra.
    - replace ((q - 1) / r * (1 + r) * (r / (1 + r))) with (q - 1)
        by (field; lra).
      lra. }
  replace (M * ((q - 1) / r) * (1 + r)) with (M * ((q - 1) / r * (1 + r)))
    by ring.
  apply Rmult_le_compat_l; assumption.
Qed.

(** X11: for valid input calculateSIP reports no loss: the estimated
    returns and the returns percentage are at least 0 and the total value
    is at least the total investment. *)
Theorem X11_sip_returns_nonneg :
  forall mi ip roi : R,
    500 <= mi -> 1 <= ip <= 50 -> 1 <= roi <= 20 ->
    exists res,
      SIP.calculateSIP mi ip roi = Ok res
      /\ 0 <= SIP.estimatedReturns res
      /\ SIP.totalInvestment res <= SIP.totalValue res
      /\ 0 <= SIP.returnsPercentage res.
Proof.
  intros mi ip roi Hmi Hip Hroi. unfold SIP.calculateSIP.
  rewrite SIP_validateInputs_ok by assumption. cbn [bind].
  eexists. split; [reflexivity |].
  cbn [SIP.estimatedReturns SIP.totalInvestment SIP.totalValue
         SIP.returnsPercentage].
  pose proof (SIP_future_value_ge_invested mi roi (ip * 12)
                ltac:(lra) ltac:(lra) ltac:(lra)) as H.
  set (fv := SIP.calculateFutureValueOfAnnuity mi roi (ip * 12)) in *.
  split; [apply round2_nonneg; lra |].
  split; [apply round2_le; exact H |].
  apply round2_nonneg.
  assert (Hti : 0 < mi * (ip * 12)) by nra.
  rewrite ltb_true by exact Hti.
  apply Rmult_le_pos; [| lra].
  apply Rmult_le_pos; [lra |]. left. now apply Rinv_0_lt_compat.
Qed.

Lemma X11_sip_returns_nonneg_witness :
  exists res,
    SIP.calculateSIP 5000 10 12 = Ok res
    /\ 0 <= SIP.estimatedReturns res
    /\ SIP.totalInvestment res <= SIP.totalValue res
    /\ 0 <= SIP.returnsPercentage res.
Proof.
  apply (X11_sip_returns_nonneg 5000 10 12); lra.
Defined.

Lemma for_range_seq (upto : R) :
  for_range 1 upto = seq 1 (Z.to_nat (Int_part upto)).
Proof.
  unfold for_range. f_equal. lia.
Qed.

(** X12: the year-wise growth of calculateSIP has one entry per completed
    year, numbered from 1; when the investment period is a whole number
    of years its last entry carries the totals of the result. *)
Theorem X12_sip_growth_reaches_totals :
  forall mi ip roi : R,
    500 <= mi -> 1 <= ip <= 50 -> 1 <= roi <= 20 ->
    exists res,
      SIP.calculateSIP mi ip roi = Ok res
      /\ map SIP.year (SIP.yearWiseGrowth res)
         = seq 1 (Z.to_nat (Int_part ip))
      /\ (forall n : nat,
            ip = INR n ->
            nth_error (SIP.yearWiseGrowth res) (n - 1) =
              Some {| SIP.year := n;
                      SIP.entryTotalInvestment := SIP.totalInvestment res;
                      SIP.entryEstimatedReturns := SIP.estimatedReturns res;
                      SIP.entryTotalValue := SIP.totalValue res |}).
Proof.
  intros mi ip roi Hmi Hip Hroi. unfold SIP.calculateSIP.
  rewrite SIP_validateInputs_ok by assumption. cbn [bind].
  eexists. split; [reflexivity |].
  cbn [SIP.yearWiseGrowth SIP.totalInvestment SIP.estimatedReturns
         SIP.totalValue].
  unfold SIP.calculateYearWiseGrowth. rewrite for_range_seq. split.
  - rewrite map_map. cbn [SIP.growthEntry SIP.year]. apply map_id.
  - intros n ->. rewrite Int_part_INR, Nat2Z.id.
    assert (Hn : (1 <= n)%nat).
    { apply INR_le. simpl. lra. }
    rewrite nth_error_map_seq by lia.
    replace (1 + (n - 1))%nat with n by lia.
    unfold SIP.growthEntry, SIP.calculateFutureValueOfAnnuity.
    rewrite !eqb_false by lra. reflexivity.
Qed.

Lemma X12_sip_growth_reaches_totals_witness :
  exists res,
    SIP.calculateSIP 5000 10 12 = Ok res
    /\ map SIP.year (SIP.yearWiseGrowth res) = seq 1 (Z.to_nat (Int_part 10)).
Proof.
  destruct (X12_sip_growth_reaches_totals 5000 10 12) as [res [H1 [H2 _]]];
    [lra | lra | lra |].
  exists res. split; assumption.
Defined.

Lemma Sorted_map_seq (f : nat -> R) (len m : nat) :
  (forall k : nat, f k <= f (S k)) -> Sorted Rle (map f (seq m len)).
Proof.
  intro Hf. revert m. induction len as [| len IH]; intro m.
  - constructor.
  - cbn [seq map]. constructor; [apply IH |].
    destruct len as [| len]; cbn [seq map]; constructor. apply Hf.
Qed.

(** X13: in the year-wise growth of calculateSIP the total investment and
    the total value never fall from one year to the next. *)
Theorem X13_sip_growth_monotone :
  forall mi ip roi : R,
    500 <= mi -> 1 <= ip <= 50 -> 1 <= roi <= 20 ->
    exists res,
      SIP.calculateSIP mi ip roi = Ok res
      /\ Sorted Rle (map SIP.entryTotalInvestment (SIP.yearWiseGrowth res))
      /\ Sorted Rle (map SIP.entryTotalValue (SIP.yearWiseGrowth res)).
Proof.
  intros mi ip roi Hmi Hip Hroi. unfold SIP.calculateSIP.
  rewrite SIP_validateInputs_ok by assumption. cbn [bind].
  eexists. split; [reflexivity |].
  cbn [SIP.yearWiseGrowth]. unfold SIP.calculateYearWiseGrowth.
  rewrite for_range_seq, !map_map.
  set (r := roi / 12 / 100). assert (Hr : 0 < r) by (unfold r; lra).
  split; apply Sorted_map_seq; intro k;
    cbn [SIP.growthEntry SIP.entryTotalInvestment SIP.entryTotalValue];
    apply round2_le; rewrite ?S_INR.
  - pose proof (pos_INR k). nra.
  - rewrite !eqb_false by lra. rewrite !Math_pow_pos by lra.
    assert (Hq : Rpower (1 + r) (INR k * 12)
                 <= Rpower (1 + r) ((INR k + 1) * 12))
      by (apply Rle_Rpower; lra).
    set (q1 := Rpower (1 + r) (INR k * 12)) in *.
    set (q2 := Rpower (1 + r) ((INR k + 1) * 12)) in *.
    assert (Hd : (q1 - 1) / r <= (q2 - 1) / r).
    { apply Rmult_le_compat_r; [left; now apply Rinv_0_lt_compat | lra]. }
    apply Rmult_le_compat_r; [lra |].
    apply Rmult_le_compat_l; [lra | exact Hd].
Qed.

Lemma X13_sip_growth_monotone_witness :
  exists res,
    SIP.calculateSIP 5000 10 12 = Ok res
    /\ Sorted Rle (map SIP.entryTotalInvestment (SIP.yearWiseGrowth res))
    /\ Sorted Rle (map SIP.entryTotalValue (SIP.yearWiseGrowth res)).
Proof.
  apply (X13_sip_growth_monotone 5000 10 12); lra.
Defined.

(** ** Retirement corpus: growth and returns *)

(** X14: for whole-number ages (and otherwise valid input), the
    year-wise growth of calculateCorpus has one entry per year until
    retirement, numbered from 1; its last entry is at the retirement age
    and carries the retirement corpus and the total invested of the
    result. *)
Theorem X14_corpus_growth_reaches_totals :
  forall (a b : nat) (ms roi : R),
    (18 <= a <= 100)%nat -> (40 <= b <= 100)%nat -> (a < b)%nat ->
    0 < ms -> 1 <= roi <= 20 ->
    exists res,
      Retirement.calculateCorpus (INR a) (INR b) ms roi = Ok res
      /\ map Retirement.year (Retirement.yearWiseGrowth res)
         = seq 1 (b - a)
      /\ nth_error (Retirement.yearWiseGrowth res) (b - a - 1) =
           Some {| Retirement.year := (b - a)%nat;
                   Retirement.age := INR b;
                   Retirement.totalInvested :=
                     Retirement.totalSavingsInvested res;
                   Retirement.entryCorpus :=
                     Retirement.retirementCorpus res |}.
Proof.
  intros a b ms roi [Ha1 Ha2] [Hb1 Hb2] Hlt Hms Hroi.
  assert (H18 : INR 18 = 18) by (rewrite INR_IZR_INZ; reflexivity).
  assert (H40 : INR 40 = 40) by (rewrite INR_IZR_INZ; reflexivity).
  assert (H100 : INR 100 = 100) by (rewrite INR_IZR_INZ; reflexivity).
  assert (Hca : 18 <= INR a <= 100).
  { apply le_INR in Ha1, Ha2. lra. }
  assert (Hra : 40 <= INR b <= 100).
  { apply le_INR in Hb1, Hb2. lra. }
  assert (Hab : INR a < INR b) by (apply lt_INR; exact Hlt).
  assert (Hd : INR b - INR a = INR (b - a)) by (rewrite minus_INR; [lra | lia]).
  unfold Retirement.calculateCorpus.
  rewrite Retirement_validateInputs_ok by assumption. cbn [bind].
  eexists. split; [reflexivity |].
  cbn [Retirement.yearWiseGrowth Retirement.totalSavingsInvested
         Retirement.retirementCorpus].
  unfold Retirement.calculateYearWiseGrowth.
  rewrite for_range_seq, Hd, Int_part_INR, Nat2Z.id. split.
  - rewrite map_map. cbn [Retirement.growthEntry Retirement.year].
    apply map_id.
  - rewrite nth_error_map_seq by lia.
    replace (1 + (b - a - 1))%nat with (b - a)%nat by lia.
    unfold Retirement.growthEntry, Retirement.calculateFutureValueOfAnnuity.
    rewrite !eqb_false by lra. rewrite <- Hd.
    replace (INR a + (INR b - INR a)) with (INR b) by lra. reflexivity.
Qed.

Lemma X14_corpus_growth_reaches_totals_witness :
  exists res,
    Retirement.calculateCorpus (INR 30) (INR 60) 10000 12 = Ok res
    /\ map Retirement.year (Retirement.yearWiseGrowth res)
       = seq 1 (60 - 30).
Proof.
  destruct (X14_corpus_growth_reaches_totals 30 60 10000 12)
    as [res [H1 [H2 _]]]; [lia | lia | lia | lra | lra |].
  exists res. split; assumption.
Defined.

(** X15: for valid input with the retirement at least one month away,
    calculateCorpus reports no loss: the total returns earned are at
    least 0 and the corpus is at least the total savings invested. *)
Theorem X15_corpus_returns_nonneg :
  forall ca ra ms roi : R,
    18 <= ca <= 100 -> 40 <= ra <= 100 -> ca < ra -> 0 < ms ->
    1 <= roi <= 20 -> 1 <= (ra - ca) * 12 ->
    exists res,
      Retirement.calculateCorpus ca ra ms roi = Ok res
      /\ 0 <= Retirement.totalReturnsEarned res
      /\ Retirement.totalSavingsInvested res <= Retirement.retirementCorpus res.
Proof.
  intros ca ra ms roi Hca Hra Hlt Hms Hroi Hmonth.
  unfold Retirement.calculateCorpus.
  rewrite Retirement_validateInputs_ok by assumption. cbn [bind].
  eexists. split; [reflexivity |].
  cbn [Retirement.totalReturnsEarned Retirement.totalSavingsInvested
         Retirement.retirementCorpus].
  assert (H : ms * ((ra - ca) * 12)
              <= Retirement.calculateFutureValueOfAnnuity ms roi
                   ((ra - ca) * 12)).
  { unfold Retirement.calculateFutureValueOfAnnuity.
    set (r := roi / 12 / 100). assert (Hr : 0 < r) by (unfold r; lra).
    rewrite eqb_false by lra. rewrite Math_pow_pos by lra.
    pose proof (Rpower_bernoulli r ((ra - ca) * 12) ltac:(lra) Hmonth) as B.
    set (q := Rpower (1 + r) ((ra - ca) * 12)) in *.
    apply Rmult_le_compat_l; [lra |].
    apply Rmult_le_reg_r with r; [exact Hr |].
    replace ((q - 1) / r * r) with (q - 1) by (field; lra). lra. }
  split; [apply round2_nonneg; lra | apply round2_le; exact H].
Qed.

Lemma X15_corpus_returns_nonneg_witness :
  exists res,
    Retirement.calculateCorpus 30 60 10000 12 = Ok res
    /\ 0 <= Retirement.totalReturnsEarned res
    /\ Retirement.totalSavingsInvested res <= Retirement.retirementCorpus res.
Proof.
  apply (X15_corpus_returns_nonneg 30 60 10000 12); lra.
Defined.

(** ** Fixed deposit: acceptance and results *)

Lemma FD_validateInputs_inv (P Rate t : R) :
  FD.validateInputs P Rate t = Ok tt ->
  1000 <= P /\ 1 <= Rate <= 15 /\ 0 < t <= 10.
Proof.
  unfold FD.validateInputs. js_split; intro H; try discriminate H; lra.
Qed.

(** X16: calculateFD returns a result exactly when the principal is at
    least 1000, the rate lies in [1, 15] and the tenure is positive and at
    most 10 years; a tenure below one year is accepted although the error
    message speaks of 1 to 10 years. *)
Theorem X16_calculateFD_accepts_iff :
  forall P Rate t : R,
    (exists res, FD.calculateFD P Rate t = Ok res)
    <-> 1000 <= P /\ 1 <= Rate <= 15 /\ 0 < t <= 10.
Proof.
  intros P Rate t. split.
  - intros [res H]. apply bind_ok_inv in H. destruct H as [[] [Hv _]].
    now apply FD_validateInputs_inv.
  - intros [HP [HR Ht]]. unfold FD.calculateFD.
    rewrite FD_validateInputs_ok by assumption. cbn [bind].
    eexists. reflexivity.
Qed.

Lemma X16_calculateFD_accepts_iff_witness :
  exists res, FD.calculateFD 10000 6 0.5 = Ok res.
Proof.
  apply (proj2 (X16_calculateFD_accepts_iff 10000 6 0.5)). lra.
Defined.

Lemma effective_rate_ge_nominal (Rate : R) :
  0 <= Rate -> Rate <= FD.calculateEffectiveRate Rate 4.
Proof.
  intro HR. rewrite calculateEffectiveRate_quarterly by exact HR.
  set (x := Rate / 100 / 4). assert (Hx : 0 <= x) by (unfold x; lra).
  replace Rate with (4 * x * 100) at 1 by (unfold x; field).
  assert (H : 1 + 4 * x <= (1 + x) ^ 4).
  { simpl. assert (0 <= x * x) by nra. assert (0 <= x * x * x) by nra.
    assert (0 <= x * x * x * x) by nra. nra. }
  lra.
Qed.

(** X17: for valid input calculateFD reports no loss: the interest earned
    is at least 0, the maturity amount at least the rounded principal and
    the effective rate at least the rounded nominal rate. *)
Theorem X17_fd_no_loss :
  forall P Rate t : R,
    1000 <= P -> 1 <= Rate <= 15 -> 0 < t <= 10 ->
    exists res,
      FD.calculateFD P Rate t = Ok res
      /\ 0 <= FD.totalInterestEarned res
      /\ round2 P <= FD.maturityAmount res
      /\ round2 Rate <= FD.effectiveRate res.
Proof.
  intros P Rate t HP HR Ht. unfold FD.calculateFD.
  rewrite FD_validateInputs_ok by assumption. cbn [bind].
  eexists. split; [reflexivity |].
  cbn [FD.totalInterestEarned FD.maturityAmount FD.effectiveRate].
  assert (Hm : P <= FD.calculateMaturityAmount P Rate t
                      FD.COMPOUNDING_FREQUENCY).
  { unfold FD.calculateMaturityAmount, FD.COMPOUNDING_FREQUENCY.
    rewrite Math_pow_pos by lra.
    assert (Hq : 1 < Rpower (1 + Rate / 100 / 4) (4 * t))
      by (apply Rpower_gt_1; lra).
    nra. }
  split; [apply round2_nonneg; lra |].
  split; [apply round2_le; exact Hm |].
  apply round2_le. unfold FD.COMPOUNDING_FREQUENCY.
  apply effective_rate_ge_nominal. lra.
Qed.

Lemma X17_fd_no_loss_witness :
  exists res,
    FD.calculateFD 10000 6 1 = Ok res
    /\ 0 <= FD.totalInterestEarned res
    /\ round2 10000 <= FD.maturityAmount res
    /\ round2 6 <= FD.effectiveRate res.
Proof.
  apply (X17_fd_no_loss 10000 6 1); lra.
Defined.

(** X18: the two helpers of the FD calculator agree: for a rate that is
    not negative, the maturity amount under quarterly compounding is the
    principal compounded once a year at the effective annual rate. *)
Theorem X18_maturity_from_effective_rate :
  forall P Rate t : R,
    0 <= Rate ->
    FD.calculateMaturityAmount P Rate t 4 =
      P * Rpower (1 + FD.calculateEffectiveRate Rate 4 / 100) t.
Proof.
  intros P Rate t HR.
  unfold FD.calculateMaturityAmount, FD.calculateEffectiveRate.
  rewrite !Math_pow_pos by lra.
  set (x := Rate / 100 / 4).
  replace (1 + (Rpower (1 + x) 4 - 1) * 100 / 100) with (Rpower (1 + x) 4)
    by (field).
  now rewrite Rpower_mult.
Qed.

Lemma X18_maturity_from_effective_rate_witness :
  FD.calculateMaturityAmount 10000 6 2 4 =
    10000 * Rpower (1 + FD.calculateEffectiveRate 6 4 / 100) 2.
Proof.
  apply X18_maturity_from_effective_rate. lra.
Defined.

(** ** Loan eligibility: the reported amounts *)

(** A loan repaid by [months] instalments is at most their sum. *)
Lemma loan_amount_le_payments (emi roi months : R) :
  0 <= emi -> 0 < roi -> 0 <= months ->
  Loan.calculateLoanAmountFromEMI emi roi months <= emi * months.
Proof.
  intros He Hroi Hm. unfold Loan.calculateLoanAmountFromEMI.
  set (r := roi / 12 / 100). assert (Hr : 0 < r) by (unfold r; lra).
  rewrite eqb_false by lra. rewrite Math_pow_pos by lra.
  assert (Hf : 0 < Rpower (1 + r) months) by (unfold Rpower; apply exp_pos).
  assert (Hinv : 1 - months * r <= / Rpower (1 + r) months).
  { rewrite <- Rpower_Ropp. unfold Rpower.
    pose proof (exp_ineq1_le (- months * ln (1 + r))) as H.
    pose proof (ln_le_pred (1 + r) ltac:(lra)) as Hl. nra. }
  set (f := Rpower (1 + r) months) in *.
  apply Rmult_le_compat_l; [exact He |].
  apply Rmult_le_reg_r with r; [exact Hr |].
  replace ((f - 1) / (r * f) * r) with (1 - / f) by (field; lra). lra.
Qed.

Lemma round2_80 : round2 80 = 80.
Proof. rewrite (round2_eq 80 8000) by lra. lra. Qed.

(** X19: for valid input calculateLoanEligibility reports a total amount
    payable equal to the EMI capacity times the number of months
    (rounded), an interest payable of at least 0, an eligible loan amount
    of at most the total amount payable, and a debt-to-income ratio equal
    to the EMI capacity percentage, which is at most 80. *)
Theorem X19_loan_eligibility_amounts :
  forall income emi rate tenure : R,
    10000 <= income -> 1000 <= emi -> emi < income -> emi <= income * 0.8 ->
    1 <= rate <= 30 -> 1 <= tenure <= 30 ->
    exists res,
      Loan.calculateLoanEligibility income emi rate tenure = Ok res
      /\ Loan.totalAmountPayable res = round2 (emi * (tenure * 12))
      /\ 0 <= Loan.totalInterestPayable res
      /\ Loan.eligibleLoanAmount res <= Loan.totalAmountPayable res
      /\ Loan.emiCapacityPercentage res <= 80
      /\ Loan.debtToIncomeRatio (Loan.eligibilityDetails res)
         = Loan.emiCapacityPercentage res
      /\ Loan.maximumEMI res = emi.
Proof.
  intros income emi rate tenure Hi He Hlt Hcap Hr Ht.
  unfold Loan.calculateLoanEligibility.
  rewrite Loan_validateInputs_ok by assumption. cbn [bind].
  eexists. split; [reflexivity |].
  cbn [Loan.totalAmountPayable Loan.totalInterestPayable
         Loan.eligibleLoanAmount Loan.emiCapacityPercentage
         Loan.eligibilityDetails Loan.debtToIncomeRatio Loan.maximumEMI].
  rewrite ltb_true by lra.
  pose proof (loan_amount_le_payments emi rate (tenure * 12)
                ltac:(lra) ltac:(lra) ltac:(lra)) as H.
  set (L := Loan.calculateLoanAmountFromEMI emi rate (tenure * 12)) in *.
  assert (Htot : L + (emi * (tenure * 12) - L) = emi * (tenure * 12))
    by ring.
  rewrite Htot.
  split; [reflexivity |].
  split; [apply round2_nonneg; lra |].
  split; [apply round2_le; exact H |].
  split; [| split; reflexivity].
  rewrite <- round2_80. apply round2_le.
  apply Rmult_le_reg_r with (income / 100); [lra |].
  replace (emi / income * 100 * (income / 100)) with emi by (field; lra).
  lra.
Qed.

Lemma X19_loan_eligibility_amounts_witness :
  exists res,
    Loan.calculateLoanEligibility 50000 20000 10 20 = Ok res
    /\ Loan.totalAmountPayable res = round2 (20000 * (20 * 12))
    /\ 0 <= Loan.totalInterestPayable res
    /\ Loan.eligibleLoanAmount res <= Loan.totalAmountPayable res
    /\ Loan.emiCapacityPercentage res <= 80
    /\ Loan.debtToIncomeRatio (Loan.eligibilityDetails res)
       = Loan.emiCapacityPercentage res
    /\ Loan.maximumEMI res = 20000.
Proof.
  apply (X19_loan_eligibility_amounts 50000 20000 10 20); lra.
Defined.

(** ** Budget planner: validation *)

Lemma validateExpenses_ok_iff (l : list Budget.Expense) (index : nat) :
  Budget.validateExpenses index l = Ok tt
  <-> Forall (fun e => Budget.invalidCategory e = false
                       /\ Budget.negativeAmount e = false) l.
Proof.
  revert index. induction l as [| e l IH]; intro index; cbn.
  - split; [constructor | reflexivity].
  - destruct (Budget.invalidCategory e) eqn:Ec.
    + split; [discriminate |]. intro H.
      inversion H as [| ? ? [Hc Ha] ?]; subst. congruence.
    + destruct (Budget.negativeAmount e) eqn:Ea.
      * split; [discriminate |]. intro H.
        inversion H as [| ? ? [Hc Ha] ?]; subst. congruence.
      * rewrite IH. split.
        -- intro H. constructor; [split; assumption | exact H].
        -- intro H. inversion H; subst. assumption.
Qed.

Lemma validateExpenses_first_invalid
  (pre post : list Budget.Expense) (e : Budget.Expense) (index : nat) :
  Forall (fun e => Budget.invalidCategory e = false
                   /\ Budget.negativeAmount e = false) pre ->
  Budget.validateExpenses index (pre ++ e :: post)%list =
    Budget.validateExpenses (index + List.length pre) (e :: post).
Proof.
  revert index. induction pre as [| p pre IH]; intros index H.
  - cbn [app List.length]. now rewrite Nat.add_0_r.
  - inversion H as [| ? ? [Hc Ha] Hrest]; subst.
    cbn [app Budget.validateExpenses List.length]. rewrite Hc, Ha.
    rewrite IH by exact Hrest.
    replace (S index + List.length pre)%nat
      with (index + S (List.length pre))%nat by lia.
    reflexivity.
Qed.

(** X20: with a positive income, validateBudgetInputs accepts an expense
    array exactly when every expense has a non-empty string category and
    no negative amount (a missing amount is accepted); otherwise it
    throws for the first offending expense, naming its index, and the
    category is checked before the amount. *)
Theorem X20_budget_validation :
  forall (income : R) (l : list Budget.Expense),
    0 < income ->
    (Budget.validateBudgetInputs income (Some l) = Ok tt
     <-> Forall (fun e => Budget.invalidCategory e = false
                          /\ Budget.negativeAmount e = false) l)
    /\ (forall pre e post,
          l = (pre ++ e :: post)%list ->
          Forall (fun e => Budget.invalidCategory e = false
                           /\ Budget.negativeAmount e = false) pre ->
          (Budget.invalidCategory e = true ->
           Budget.validateBudgetInputs income (Some l) =
             Throw ("Expense at index "
                    ++ Budget.indexString (List.length pre)
                    ++ " must have a valid category"))
          /\ (Budget.invalidCategory e = false ->
              Budget.negativeAmount e = true ->
              Budget.validateBudgetInputs income (Some l) =
                Throw ("Expense amount at index "
                       ++ Budget.indexString (List.length pre)
                       ++ " cannot be negative"))).
Proof.
  intros income l Hi. unfold Budget.validateBudgetInputs. js_compare.
  cbn [orb]. split; [apply validateExpenses_ok_iff |].
  intros pre e post -> Hpre.
  rewrite validateExpenses_first_invalid by exact Hpre.
  cbn [Nat.add Budget.validateExpenses]. split.
  - intros ->. reflexivity.
  - intros -> ->. reflexivity.
Qed.

Lemma X20_budget_validation_witness :
  Budget.validateBudgetInputs 50000
    (Some [ {| Budget.category := Some "Rent"; Budget.amount := Some 20000 |};
            {| Budget.category := None; Budget.amount := Some 500 |} ])
  = Throw "Expense at index 1 must have a valid category".
Proof.
  assert (Hi : 0 < 50000) by lra.
  pose proof (X20_budget_validation 50000
    [ {| Budget.category := Some "Rent"; Budget.amount := Some 20000 |};
      {| Budget.category := None; Budget.amount := Some 500 |} ] Hi) as [_ H].
  specialize (H [ {| Budget.category := Some "Rent";
                     Budget.amount := Some 20000 |} ]
                {| Budget.category := None; Budget.amount := Some 500 |}
                [] eq_refl).
  apply H; [| reflexivity].
  constructor; [| constructor]. split; [reflexivity |].
  cbn. apply ltb_false. lra.
Defined.

(** ** Budget planner: the sorted shares *)

Lemma insertByAmount_perm (x : Budget.Share) (l : list Budget.Share) :
  Permutation (Budget.insertByAmount x l) (x :: l).
Proof.
  induction l as [| y l IH]; cbn.
  - apply Permutation_refl.
  - destruct (leb (Budget.shareAmount y) (Budget.shareAmount x)).
    + apply Permutation_refl.
    + apply perm_trans with (y :: x :: l); [| apply perm_swap].
      now apply perm_skip.
Qed.

Lemma sortByAmount_perm (l : list Budget.Share) :
  Permutation (Budget.sortByAmount l) l.
Proof.
  induction l as [| x l IH]; cbn.
  - apply Permutation_refl.
  - apply perm_trans with (x :: Budget.sortByAmount l).
    + apply insertByAmount_perm.
    + now apply perm_skip.
Qed.




Lemma calculateBudget_ok (income : R) (l : list Budget.Expense) :
  Budget.validateBudgetInputs income (Some l) = Ok tt ->
  Budget.calculateBudget income (Some l) =
    Ok {| Budget.income := income;
          Budget.expenses :=
            Budget.calculatePercentages l (Budget.sumAmounts l);
          Budget.totalExpenses := round2 (Budget.sumAmounts l);
          Budget.savings := round2 (income - Budget.sumAmounts l);
          Budget.savingsPercentage :=
            round2 ((income - Budget.sumAmounts l) / income * 100);
          Budget.breakdown :=
            {| Budget.byCategory :=
                 Budget.calculatePercentages l (Budget.sumAmounts l);
               Budget.chartData :=
                 map Budget.toChartItem
                   (Budget.calculatePercentages l (Budget.sumAmounts l)) |} |}.
Proof.
  intro Hv. unfold Budget.calculateBudget. rewrite Hv. cbn [bind].
  assert (Hi : 0 < income).
  { revert Hv. unfold Budget.validateBudgetInputs.
    js_split; intro H; try discriminate H; lra. }
  rewrite ltb_true by exact Hi.
  unfold Budget.calculatePercentages. rewrite !map_map. reflexivity.
Qed.

Lemma budget_example_valid :
  Budget.validateBudgetInputs 50000
    (Some [ {| Budget.category := Some "Food"; Budget.amount := Some 8000 |};
            {| Budget.category := Some "Rent"; Budget.amount := Some 20000 |} ])
  = Ok tt.
Proof.
  unfold Budget.validateBudgetInputs. js_compare. cbn.
  rewrite !ltb_false by lra. reflexivity.
Qed.

(** ** Budget planner: totals and percentages *)

Lemma fold_left_sum (f : Budget.Expense -> R) (l : list Budget.Expense)
  (a : R) :
  fold_left (fun sum exp => sum + f exp) l a = a + Rsum (map f l).
Proof.
  revert a. induction l as [| e l IH]; intro a; cbn.
  - lra.
  - rewrite IH. fold (Rsum (map f l)). lra.
Qed.

Lemma sumAmounts_Rsum (l : list Budget.Expense) :
  Budget.sumAmounts l = Rsum (map Budget.amountOrZero l).
Proof. unfold Budget.sumAmounts. rewrite fold_left_sum. lra. Qed.

Lemma amountOrZero_nonneg (e : Budget.Expense) :
  Budget.negativeAmount e = false -> 0 <= Budget.amountOrZero e.
Proof.
  unfold Budget.negativeAmount, Budget.amountOrZero.
  destruct (Budget.amount e) as [a |]; [| lra].
  unfold ltb, falsy, eqb.
  destruct (Rlt_dec a 0); [discriminate |].
  destruct (Req_dec_T a 0); lra.
Qed.

Lemma valid_expenses_inv (income : R) (l : list Budget.Expense) :
  Budget.validateBudgetInputs income (Some l) = Ok tt ->
  0 < income
  /\ Forall (fun e => Budget.invalidCategory e = false
                      /\ Budget.negativeAmount e = false) l.
Proof.
  intro Hv.
  assert (Hi : 0 < income).
  { revert Hv. unfold Budget.validateBudgetInputs.
    js_split; intro H; try discriminate H; lra. }
  split; [exact Hi |].
  revert Hv. unfold Budget.validateBudgetInputs. js_compare. cbn [orb].
  apply validateExpenses_ok_iff.
Qed.

Lemma Rsum_nonneg (l : list R) : Forall (fun x => 0 <= x) l -> 0 <= Rsum l.
Proof.
  induction 1 as [| x l Hx Hl IH]; cbn; [lra |].
  fold (Rsum l). lra.
Qed.

Lemma sumAmounts_nonneg (l : list Budget.Expense) :
  Forall (fun e => Budget.invalidCategory e = false
                   /\ Budget.negativeAmount e = false) l ->
  0 <= Budget.sumAmounts l.
Proof.
  intro H. rewrite sumAmounts_Rsum. apply Rsum_nonneg.
  apply Forall_map. eapply Forall_impl; [| exact H].
  intros e [_ Ha]. now apply amountOrZero_nonneg.
Qed.

Lemma round2_100 : round2 100 = 100.
Proof. rewrite (round2_eq 100 10000) by lra. lra. Qed.

(** X22: for valid input calculateBudget reports total expenses of at
    least 0, savings of at most the rounded income and a savings
    percentage of at most 100; total expenses and savings add up to the
    income within one cent, and both savings figures are those that
    calculateSavings returns for the summed expenses. *)
Theorem X22_budget_totals :
  forall (income : R) (l : list Budget.Expense),
    Budget.validateBudgetInputs income (Some l) = Ok tt ->
    exists res,
      Budget.calculateBudget income (Some l) = Ok res
      /\ Budget.totalExpenses res
         = round2 (Rsum (map Budget.amountOrZero l))
      /\ 0 <= Budget.totalExpenses res
      /\ Budget.savings res <= round2 income
      /\ Budget.savingsPercentage res <= 100
      /\ Rabs (Budget.totalExpenses res + Budget.savings res - income)
         <= 0.01
      /\ Budget.savings res
         = Budget.savingsAmount
             (Budget.calculateSavings income (Budget.sumAmounts l))
      /\ Budget.savingsPercentage res
         = Budget.savingsShare
             (Budget.calculateSavings income (Budget.sumAmounts l)).
Proof.
  intros income l Hv. rewrite calculateBudget_ok by exact Hv.
  destruct (valid_expenses_inv income l Hv) as [Hi Hall].
  pose proof (sumAmounts_nonneg l Hall) as Hs.
  eexists. split; [reflexivity |].
  cbn [Budget.totalExpenses Budget.savings Budget.savingsPercentage].
  split; [now rewrite sumAmounts_Rsum |].
  split; [now apply round2_nonneg |].
  split; [apply round2_le; lra |].
  split.
  { rewrite <- round2_100 at 2. apply round2_le.
    apply Rmult_le_reg_r with (income / 100); [lra |].
    replace ((income - Budget.sumAmounts l) / income * 100 * (income / 100))
      with (income - Budget.sumAmounts l) by (field; lra).
    lra. }
  split.
  { pose proof (round2_close (Budget.sumAmounts l)) as H1.
    pose proof (round2_close (income - Budget.sumAmounts l)) as H2.
    apply Rabs_le_iff. lra. }
  unfold Budget.calculateSavings.
  cbn [Budget.savingsAmount Budget.savingsShare].
  rewrite ltb_true by exact Hi. split; reflexivity.
Qed.

Lemma X22_budget_totals_witness :
  exists res,
    Budget.calculateBudget 50000
      (Some [ {| Budget.category := Some "Food";
                 Budget.amount := Some 8000 |};
              {| Budget.category := Some "Rent";
                 Budget.amount := Some 20000 |} ]) = Ok res
    /\ Rabs (Budget.totalExpenses res + Budget.savings res - 50000) <= 0.01.
Proof.
  destruct (X22_budget_totals 50000 _ budget_example_valid)
    as [res [H1 [_ [_ [_ [_ [H2 _]]]]]]].
  exists res. split; assumption.
Defined.

Lemma Rsum_perm (l l' : list R) : Permutation l l' -> Rsum l = Rsum l'.
Proof.
  induction 1 as [| x l l' _ IH | x y l | l l' l'' _ IH1 _ IH2]; cbn.
  - reflexivity.
  - fold (Rsum l) (Rsum l'). now rewrite IH.
  - fold (Rsum l). lra.
  - now rewrite IH1.
Qed.

Lemma Rsum_round2 (l : list R) :
  Rabs (Rsum (map round2 l) - Rsum l) <= INR (List.length l) * 0.005.
Proof.
  induction l as [| x l IH].
  - cbn. replace (0 - 0) with 0 by lra. rewrite Rabs_R0. lra.
  - cbn [map Rsum fold_right List.length].
    fold (Rsum (map round2 l)) (Rsum l). rewrite S_INR.
    pose proof (round2_close x) as Hx.
    apply Rabs_le_iff. apply Rabs_le_iff in IH. lra.
Qed.

(** The unrounded percentages of the positive expenses add up to the
    share of the total they make, which is all of it. *)
Lemma Rsum_cons (x : R) (l : list R) : Rsum (x :: l) = x + Rsum l.
Proof. reflexivity. Qed.

(** What [exp.amount || 0] is for an expense that passed validation. *)
Lemma amountOrZero_cases (e : Budget.Expense) :
  Budget.negativeAmount e = false ->
  match Budget.amount e with
  | Some a => (0 < a /\ Budget.amountOrZero e = a)
              \/ (a = 0 /\ Budget.amountOrZero e = 0)
  | None => Budget.amountOrZero e = 0
  end.
Proof.
  unfold Budget.negativeAmount, Budget.amountOrZero.
  destruct (Budget.amount e) as [a |]; [| reflexivity].
  unfold ltb, falsy, eqb. destruct (Rlt_dec a 0); [discriminate |].
  intros _. destruct (Req_dec_T a 0); [right | left]; split; lra.
Qed.

Lemma withPercentage_sum (t : R) (l : list Budget.Expense) :
  0 < t ->
  Forall (fun e => Budget.invalidCategory e = false
                   /\ Budget.negativeAmount e = false) l ->
  Rsum (map Budget.sharePercentage (Budget.withPercentage t l))
  = Budget.sumAmounts l / t * 100.
Proof.
  intros Ht Hall. rewrite sumAmounts_Rsum.
  induction Hall as [| e l [_ Ha] _ IH].
  - cbn. lra.
  - cbn [map Budget.withPercentage]. rewrite Rsum_cons.
    pose proof (amountOrZero_cases e Ha) as Hcase.
    destruct (Budget.amount e) as [a |].
    + destruct Hcase as [[Hp Hz] | [Hp Hz]]; rewrite Hz.
      * rewrite (ltb_true 0 a Hp). cbn [map]. rewrite Rsum_cons.
        cbn [Budget.sharePercentage].
        rewrite IH, (ltb_true 0 t Ht). field. lra.
      * rewrite (ltb_false 0 a) by lra. rewrite IH. lra.
    + rewrite Hcase, IH. lra.
Qed.

Lemma withPercentage_bounds (t : R) (l : list Budget.Expense) :
  Forall (fun e => Budget.invalidCategory e = false
                   /\ Budget.negativeAmount e = false) l ->
  Budget.sumAmounts l <= t ->
  Forall (fun s => 0 <= Budget.sharePercentage s <= 100)
    (Budget.withPercentage t l).
Proof.
  intros Hall. rewrite sumAmounts_Rsum.
  induction Hall as [| e l [Hc Ha] Hrest IH]; intro Hle;
    cbn [Budget.withPercentage].
  - constructor.
  - cbn [map] in Hle. rewrite Rsum_cons in Hle.
    pose proof (amountOrZero_nonneg e Ha) as He.
    assert (Hl : 0 <= Rsum (map Budget.amountOrZero l)).
    { rewrite <- sumAmounts_Rsum. now apply sumAmounts_nonneg. }
    specialize (IH ltac:(lra)).
    pose proof (amountOrZero_cases e Ha) as Hcase.
    destruct (Budget.amount e) as [a |]; [| exact IH].
    destruct Hcase as [[Hp Hz] | [Hp Hz]].
    + rewrite (ltb_true 0 a Hp). constructor; [| exact IH].
      cbn [Budget.sharePercentage]. rewrite Hz in Hle.
      rewrite ltb_true by lra. split.
      * apply Rmult_le_pos; [| lra]. apply Rmult_le_pos; [lra |].
        left. apply Rinv_0_lt_compat. lra.
      * apply Rmult_le_reg_r with (t / 100); [lra |].
        replace (a / t * 100 * (t / 100)) with a by (field; lra). lra.
    + rewrite (ltb_false 0 a) by lra. exact IH.
Qed.

(** X23: for valid input with expenses above 0, every percentage that
    calculateBudget lists lies between 0 and 100, and the listed
    percentages add up to 100 within 0.005 per listed expense. *)
Theorem X23_budget_percentages :
  forall (income : R) (l : list Budget.Expense),
    Budget.validateBudgetInputs income (Some l) = Ok tt ->
    0 < Budget.sumAmounts l ->
    exists res,
      Budget.calculateBudget income (Some l) = Ok res
      /\ Forall (fun s => 0 <= Budget.sharePercentage s <= 100)
           (Budget.expenses res)
      /\ Rabs (Rsum (map Budget.sharePercentage (Budget.expenses res)) - 100)
         <= INR (List.length (Budget.expenses res)) * 0.005.
Proof.
  intros income l Hv Hpos. rewrite calculateBudget_ok by exact Hv.
  destruct (valid_expenses_inv income l Hv) as [Hi Hall].
  eexists. split; [reflexivity |]. cbn [Budget.expenses].
  unfold Budget.calculatePercentages.
  set (t := Budget.sumAmounts l) in *.
  set (shares := Budget.sortByAmount (Budget.withPercentage t l)).
  assert (Hperm : Permutation shares (Budget.withPercentage t l))
    by apply sortByAmount_perm.
  split.
  - apply Forall_map.
    apply (Permutation_Forall (Permutation_sym Hperm)).
    eapply Forall_impl;
      [| apply (withPercentage_bounds t l Hall); unfold t; lra].
    intros s [H0 H100]. cbn [Budget.roundShare Budget.sharePercentage].
    split; [now apply round2_nonneg |].
    rewrite <- round2_100. now apply round2_le.
  - rewrite length_map, map_map.
    cbn [Budget.roundShare Budget.sharePercentage].
    rewrite <- (map_map Budget.sharePercentage round2).
    pose proof (Rsum_round2 (map Budget.sharePercentage shares)) as Hr.
    rewrite length_map in Hr.
    assert (Hsum : Rsum (map Budget.sharePercentage shares) = 100).
    { rewrite (Rsum_perm _ _ (Permutation_map Budget.sharePercentage Hperm)).
      rewrite withPercentage_sum by assumption. fold t. field. lra. }
    rewrite Hsum in Hr. exact Hr.
Qed.

Lemma X23_budget_percentages_witness :
  exists res,
    Budget.calculateBudget 50000
      (Some [ {| Budget.category := Some "Food";
                 Budget.amount := Some 8000 |};
              {| Budget.category := Some "Rent";
                 Budget.amount := Some 20000 |} ]) = Ok res
    /\ Forall (fun s => 0 <= Budget.sharePercentage s <= 100)
         (Budget.expenses res).
Proof.
  assert (Hpos : 0 < Budget.sumAmounts
            [ {| Budget.category := Some "Food";
                 Budget.amount := Some 8000 |};
              {| Budget.category := Some "Rent";
                 Budget.amount := Some 20000 |} ]).
  { rewrite sumAmounts_Rsum. cbn. rewrite !falsy_false by lra. lra. }
  destruct (X23_budget_percentages 50000 _ budget_example_valid Hpos)
    as [res [H1 [H2 _]]].
  exists res. split; assumption.
Defined.

(** ** Budget planner: the expenses that are listed *)









(** ** Payments at the start and at the end of the month *)

(** X24: the SIP helper values a series of payments made at the start of
    each month, the retirement helper the same series paid at the end of
    each month: for every payment, rate and number of months the first is
    the second times one month's growth (1 + rate/12/100). *)
Theorem X24_annuity_due_against_ordinary :
  forall M roi months : R,
    SIP.calculateFutureValueOfAnnuity M roi months =
      Retirement.calculateFutureValueOfAnnuity M roi months
      * (1 + roi / 12 / 100).
Proof.
  intros M roi months.
  unfold SIP.calculateFutureValueOfAnnuity,
    Retirement.calculateFutureValueOfAnnuity, eqb.
  destruct (Req_dec_T (roi / 12 / 100) 0) as [E | E].
  - rewrite E. lra.
  - reflexivity.
Qed.
